(** * Clinical-trials language dashboard: aggregation and filtering core

    A shallow embedding of [main.py]: the sub-category parser, the
    other-language summary, the geographic enrichment, the three selectors
    and the guarded ratio computations, followed by the properties the
    specification states about them.

    Conventions.
    - A Python [str] is a [string]; its characters are read as code points
      below 256, so [str.strip()] strips the white space of that range and
      the regular expression class [\d] is [0-9].
    - A DataFrame cell is a [cell]: missing ([NaN]/[None]), a number, or a
      string.  A value handed to [parse_sub_category] may also be a Python
      list.
    - A table carries the dtype of its [other_language_criteria] column,
      which [pd.read_csv] infers and every row selection keeps.
    - Code that can raise returns a [result]. *)

From Stdlib Require Import ZArith QArith Ascii String.
From stdpp Require Import gmap strings list fin_maps.

Local Open Scope string_scope.
Local Open Scope list_scope.

(** ** Exceptions and the error monad *)

Inductive exn : Type :=
  | ValueError
  | AttributeError
  | ZeroDivisionError.

Inductive result (A : Type) : Type :=
  | Ok (a : A)
  | Raise (e : exn).

Arguments Ok {A} a.
Arguments Raise {A} e.

#[global] Instance result_ret : MRet result := fun A a => Ok a.

#[global] Instance result_bind : MBind result := fun A B k m =>
  match m with
  | Ok a => k a
  | Raise e => Raise e
  end.

(** [Series.apply f]: [f] on every element in order; the first exception
    aborts the whole call. *)
Fixpoint apply_series {A B : Type} (f : A → result B) (l : list A) : result (list B) :=
  match l with
  | [] => Ok []
  | x :: l' => y ← f x; ys ← apply_series f l'; Ok (y :: ys)
  end.

(** ** Python string primitives *)

Module Str.

(** [str.isspace] on one character, for code points below 256. *)
Definition is_space (c : ascii) : bool :=
  let n := nat_of_ascii c in
  (((9 <=? n) && (n <=? 13)) || ((28 <=? n) && (n <=? 32))
   || (n =? 133) || (n =? 160))%nat.

(** The two quote characters (apostrophe, code 39, and double quote,
    code 34), the argument of the second [strip]. *)
Definition is_quote (c : ascii) : bool :=
  Ascii.eqb c "039"%char || Ascii.eqb c "034"%char.

Definition is_digit (c : ascii) : bool :=
  let n := nat_of_ascii c in ((48 <=? n) && (n <=? 57))%nat.

Definition is_empty (s : string) : bool :=
  match s with
  | EmptyString => true
  | String _ _ => false
  end.

(** Truthiness of a string: [if item] / [if not value]. *)
Definition truthy (s : string) : bool := negb (is_empty s).

Fixpoint lstrip (p : ascii → bool) (s : string) : string :=
  match s with
  | EmptyString => EmptyString
  | String c s' => if p c then lstrip p s' else s
  end.

Fixpoint rstrip (p : ascii → bool) (s : string) : string :=
  match s with
  | EmptyString => EmptyString
  | String c s' =>
      match rstrip p s' with
      | EmptyString => if p c then EmptyString else String c EmptyString
      | r => String c r
      end
  end.

(** [s.strip(chars)] with [p] the membership test of [chars]. *)
Definition strip_chars (p : ascii → bool) (s : string) : string :=
  rstrip p (lstrip p s).

(** [s.strip()]. *)
Definition strip (s : string) : string := strip_chars is_space s.

(** [s.split(sep)] for a one-character separator: never an empty list. *)
Fixpoint split (sep : ascii) (s : string) : list string :=
  match s with
  | EmptyString => [EmptyString]
  | String c s' =>
      if Ascii.eqb c sep then EmptyString :: split sep s'
      else match split sep s' with
           | [] => [String c EmptyString]
           | h :: t => String c h :: t
           end
  end.

(** [c in s]. *)
Fixpoint contains (c : ascii) (s : string) : bool :=
  match s with
  | EmptyString => false
  | String d s' => Ascii.eqb d c || contains c s'
  end.

Definition startswith (c : ascii) (s : string) : bool :=
  match s with
  | EmptyString => false
  | String d _ => Ascii.eqb d c
  end.

Fixpoint endswith (c : ascii) (s : string) : bool :=
  match s with
  | EmptyString => false
  | String d EmptyString => Ascii.eqb d c
  | String _ s' => endswith c s'
  end.

(** [s[:-1]]. *)
Fixpoint drop_last (s : string) : string :=
  match s with
  | EmptyString => EmptyString
  | String _ EmptyString => EmptyString
  | String c s' => String c (drop_last s')
  end.

(** [s[1:-1]]. *)
Definition slice_1_m1 (s : string) : string :=
  match s with
  | EmptyString => EmptyString
  | String _ s' => drop_last s'
  end.

End Str.

(** ** Values *)

(** A cell of a DataFrame read by [pd.read_csv]: missing, a number, or a
    string.  A number is kept as the text [str()] gives for it (94305 for an
    integer cell, 94305.0 or 1e+16 for a float cell); nothing else of a
    number is used by the program. *)
Inductive cell : Type :=
  | NaN
  | Num (repr : string)
  | Str (s : string).

(** A Python value as [parse_sub_category] may receive it: a cell, or a list
    (of strings, which is what the function itself produces). *)
Inductive pyvalue : Type :=
  | Scalar (c : cell)
  | PyList (l : list string).

(** [pd.isna(value)]: a bool for a scalar; for a list, an array with one
    bool per element (all [False] for a list of strings). *)
Inductive isna_result : Type :=
  | IsnaBool (b : bool)
  | IsnaArray (a : list bool).

Definition pd_isna (value : pyvalue) : isna_result :=
  match value with
  | Scalar NaN => IsnaBool true
  | Scalar _ => IsnaBool false
  | PyList l => IsnaArray (map (fun _ => false) l)
  end.

(** The truth value [if] asks for.  An array of one element has the truth
    value of that element; any other array raises [ValueError]: the truth
    value of two or more elements is ambiguous, and so is that of an empty
    array from NumPy 2.2 on (earlier versions gave false with a deprecation
    warning; nothing below depends on the empty case). *)
Definition truth (r : isna_result) : result bool :=
  match r with
  | IsnaBool b => Ok b
  | IsnaArray [b] => Ok b
  | IsnaArray _ => Raise ValueError
  end.

(** ** [parse_sub_category] *)

(** Lines 52-75: the body once [value] is known to be a [str].  The
    [try]/[except] of the bracket branch encloses string operations that do
    not raise, so its handler is unreachable. *)
Definition parse_str (value : string) : list string :=
  let value := Str.strip value in
  if negb (Str.truthy value) then []
  else if Str.startswith "[" value && Str.endswith "]" value then
    let value := Str.strip (Str.slice_1_m1 value) in
    if negb (Str.truthy value) then []
    else
      let items :=
        map (fun item => Str.strip_chars Str.is_quote (Str.strip item))
            (Str.split "," value) in
      List.filter Str.truthy items
  else if Str.contains "," value then
    let items := map Str.strip (Str.split "," value) in
    List.filter Str.truthy items
  else [Str.strip value].

Definition parse_sub_category (value : pyvalue) : result (list string) :=
  na ← truth (pd_isna value);
  if (na : bool) then Ok []
  else match value with
       | PyList l => Ok l
       | Scalar (Str s) => Ok (parse_str s)
       | Scalar _ => Ok []
       end.

(** [parse_sub_category(parse_sub_category(v))]. *)
Definition parse_twice (v : pyvalue) : result (list string) :=
  l ← parse_sub_category v; parse_sub_category (PyList l).

(** The tokens of a cell, for use once the parser is known to return. *)
Definition cell_tokens (c : cell) : list string :=
  match c with
  | Str s => parse_str s
  | _ => []
  end.

(** ** Tables *)

(** One trial record.  [index] is the row label of the DataFrame; fields of
    a column that the table does not have are not read (see [columns]). *)
Record Row : Type := mkRow {
  index : Z;
  category : option string;
  sub_category : cell;
  english_is_inclusion : option Z;
  non_english_is_exclusion : option Z;
  other_language_criteria : option string;
  first_zipcode : cell
}.

(** The dtype of a column of text: [object] when it holds strings,
    [float64] when [pd.read_csv] found no value in it at all. *)
Inductive dtype : Type :=
  | object
  | float64.

Record DataFrame : Type := mkDataFrame {
  columns : list string;
  rows : list Row;
  (** The dtype of the [other_language_criteria] column, the one column the
      program reads through the [.str] accessor. *)
  criteria_dtype : dtype
}.

(** The dtype [pd.read_csv] gives a column of text: [object] when a value is
    present or the file has no record at all, [float64] (every cell [NaN])
    otherwise. *)
Definition infer_dtype (col : list (option string)) : dtype :=
  match col with
  | [] => object
  | _ :: _ => if existsb (fun c => bool_decide (is_Some c)) col then object else float64
  end.

(** [pd.read_csv] on a file with the given header and records.  An empty
    field is read as a missing value, never as an empty string. *)
Definition read_csv (header : list string) (records : list Row) : DataFrame :=
  {| columns := header; rows := records;
     criteria_dtype := infer_dtype (map other_language_criteria records) |}.

(** [name in df.columns]. *)
Definition has_column (name : string) (df : DataFrame) : bool :=
  bool_decide (name ∈ columns df).

(** [df[mask]] for a predicate evaluated row by row. *)
Definition select (p : Row → bool) (df : DataFrame) : DataFrame :=
  {| columns := columns df; rows := List.filter p (rows df);
     criteria_dtype := criteria_dtype df |}.

(** [df[mask]] for a boolean Series aligned with the rows. *)
Fixpoint boolean_mask {A : Type} (l : list A) (mask : list bool) : list A :=
  match l, mask with
  | x :: l', b :: mask' =>
      if b then x :: boolean_mask l' mask' else boolean_mask l' mask'
  | _, _ => []
  end.

(** [Series.dropna()]. *)
Definition dropna {A : Type} (col : list (option A)) : list A :=
  omap id col.

(** [Series.notna().sum()]. *)
Definition notna_sum {A : Type} (col : list (option A)) : nat :=
  length (List.filter (fun c => bool_decide (is_Some c)) col).

(** [Series.value_counts()] on values without [NaN], as a mapping from
    value to count (the order of the Series is not modelled). *)
Definition value_counts (l : list string) : gmap string nat :=
  foldr (fun x m => <[x := S (default 0 (m !! x))]> m) ∅ l.

(** [Series.sum()]: missing entries are skipped. *)
Definition series_sum (col : list (option Z)) : Z :=
  foldr Z.add 0%Z (dropna col).

(** ** [count_other_languages] *)

(** [Series.str]: the accessor exists on a column of dtype [object] and
    raises [AttributeError] on a [float64] column, also on an empty one. *)
Definition str_accessor {A : Type} (d : dtype) (col : list A) : result (list A) :=
  match d with
  | object => Ok col
  | float64 => Raise AttributeError
  end.

Definition count_other_languages (df : DataFrame)
    : result (nat * nat * gmap string nat) :=
  if has_column "other_language_criteria" df then
    let col := map other_language_criteria (rows df) in
    let total_with_other := notna_sum col in
    present ← str_accessor (criteria_dtype df) (dropna col);
    let all_languages :=
      map Str.strip (concat (map (Str.split ",") present)) in
    let total_languages := length all_languages in
    let language_counts := value_counts all_languages in
    Ok (total_with_other, total_languages, language_counts)
  else Ok (0, 0, ∅).

(** ** Category and sub-category selectors *)

Definition ALL_CATEGORIES : string := "All Categories".
Definition ALL_SUB_CATEGORIES : string := "All Sub-Categories".
Definition ALL_STATES : string := "All States".

(** Lines 170-173. *)
Definition filtered_df (original_df : DataFrame) (selected_category : string) : DataFrame :=
  if String.eqb selected_category ALL_CATEGORIES then original_df
  else select (fun r => bool_decide (category r = Some selected_category)) original_df.

Definition set_sub_category (r : Row) (c : cell) : Row :=
  {| index := index r; category := category r; sub_category := c;
     english_is_inclusion := english_is_inclusion r;
     non_english_is_exclusion := non_english_is_exclusion r;
     other_language_criteria := other_language_criteria r;
     first_zipcode := first_zipcode r |}.

(** [DataFrame.explode] on one row whose cell holds the list [l]: one row
    per element, every other field repeated; an empty list gives a single
    row whose cell is [NaN]. *)
Definition explode_row (r : Row) (l : list string) : list Row :=
  match l with
  | [] => [set_sub_category r NaN]
  | _ :: _ => map (fun t => set_sub_category r (Str t)) l
  end.

(** Lines 270-272: the exploded sub-category view. *)
Definition sub_cat_df (filtered_df : DataFrame) : result DataFrame :=
  parsed ← apply_series (fun r => l ← parse_sub_category (Scalar (sub_category r)); Ok (r, l))
                        (rows filtered_df);
  Ok {| columns := columns filtered_df;
        rows := concat (map (fun '(r, l) => explode_row r l) parsed);
        criteria_dtype := criteria_dtype filtered_df |}.

Definition cell_string (c : cell) : option string :=
  match c with
  | Str s => Some s
  | _ => None
  end.

(** Line 279: the counts behind the sub-category pie chart. *)
Definition sub_cat_counts (exploded : DataFrame) : gmap string nat :=
  value_counts (dropna (map (fun r => cell_string (sub_category r)) (rows exploded))).

(** Lines 297-300. *)
Definition sub_cat_filtered_df (filtered_df : DataFrame) (selected_sub_category : string)
    : result DataFrame :=
  if String.eqb selected_sub_category ALL_SUB_CATEGORIES then Ok filtered_df
  else
    mask ← apply_series
             (fun x => l ← parse_sub_category (Scalar x);
                       Ok (bool_decide (selected_sub_category ∈ l)))
             (map sub_category (rows filtered_df));
    Ok {| columns := columns filtered_df;
          rows := boolean_mask (rows filtered_df) mask;
          criteria_dtype := criteria_dtype filtered_df |}.

(** ** Geographic enrichment *)

(** [str(x)] of a cell, as [Series.astype(str)] applies it: a missing value
    becomes the text [nan], a number the text [str()] gives for it. *)
Definition astype_str (c : cell) : string :=
  match c with
  | NaN => "nan"
  | Num repr => repr
  | Str s => s
  end.

(** [n] digits at the start of [s], if they are there. *)
Fixpoint take_digits (n : nat) (s : string) : option string :=
  match n with
  | O => Some EmptyString
  | S n' =>
      match s with
      | EmptyString => None
      | String c s' =>
          if Str.is_digit c then String c <$> take_digits n' s' else None
      end
  end.

(** [Series.str.extract(r'(\d{5})')] on one string: the match of the regular
    expression at the leftmost position where it matches, else [NaN]. *)
Fixpoint extract_zip (s : string) : option string :=
  match take_digits 5 s with
  | Some z => Some z
  | None =>
      match s with
      | EmptyString => None
      | String _ s' => extract_zip s'
      end
  end.

(** [Series.unique()]: distinct values in order of first appearance. *)
Fixpoint unique_from (seen : list string) (l : list string) : list string :=
  match l with
  | [] => []
  | x :: l' =>
      if bool_decide (x ∈ seen) then unique_from seen l'
      else x :: unique_from (x :: seen) l'
  end.

Definition unique (l : list string) : list string := unique_from [] l.

(** [dict(zip(keys, values))]: a later pair overrides an earlier one. *)
Definition dict_of_pairs (l : list (string * string)) : gmap string string :=
  foldl (fun m p => <[p.1 := p.2]> m) ∅ l.

(** A record of the geo table: the trial, its cleaned zip code and the state
    code mapped from it ([None] is [NaN]). *)
Record GeoRow : Type := mkGeoRow {
  base : Row;
  zip_clean : string;
  state_code : option string
}.

Section Geo.

(** [nomi.query_postal_code(codes)] restricted to the two columns the
    program keeps: one (postal_code, state_code) row per answer, either of
    which may be missing. *)
Variable query_postal_code : list string → list (option string * option string).

(** [DataFrame.dropna()] on the two-column answer. *)
Definition dropna_pairs (l : list (option string * option string)) : list (string * string) :=
  omap (fun p => match p with
                 | (Some z, Some st) => Some (z, st)
                 | _ => None
                 end) l.

(** Lines 113-114: the rows that keep a cleaned zip code. *)
Definition clean_zips (df : DataFrame) : list (Row * string) :=
  omap (fun r => (fun z => (r, z)) <$> extract_zip (astype_str (first_zipcode r)))
       (rows df).

(** Lines 117-122. *)
Definition zip_to_state (cleaned : list (Row * string)) : gmap string string :=
  let unique_zips := unique (map snd cleaned) in
  let geo_data := dropna_pairs (query_postal_code unique_zips) in
  dict_of_pairs geo_data.

(** Lines 108-127. *)
Definition load_geographical_data (csv : DataFrame) : list GeoRow :=
  let cleaned := clean_zips csv in
  let mapping := zip_to_state cleaned in
  map (fun '(r, z) => {| base := r; zip_clean := z; state_code := mapping !! z |})
      cleaned.

End Geo.

(** Lines 102-104: the base table is the file as read. *)
Definition load_original_data (csv : DataFrame) : DataFrame := csv.

(** Line 395: trials per state; rows without a state are not counted. *)
Definition state_counts (geo_df : list GeoRow) : gmap string nat :=
  value_counts (dropna (map state_code geo_df)).

(** [Index.intersection]: the labels of the left index that also occur in
    [other], each once. *)
Fixpoint index_intersection (idx other : list Z) : list Z :=
  match idx with
  | [] => []
  | i :: idx' =>
      let rest := index_intersection idx' other in
      if bool_decide (i ∈ other) && negb (bool_decide (i ∈ rest)) then i :: rest
      else rest
  end.

(** [df.loc[labels]]: for each label in turn, the rows that carry it. *)
Definition loc (df : DataFrame) (labels : list Z) : DataFrame :=
  {| columns := columns df;
     rows := concat (map (fun i => List.filter (fun r => bool_decide (index r = i)) (rows df))
                         labels);
     criteria_dtype := criteria_dtype df |}.

(** Lines 437-438: the labels of the geo records of one state. *)
Definition state_trial_ids (geo_df : list GeoRow) (selected_state : string) : list Z :=
  let state_trials_geo :=
    List.filter (fun g => bool_decide (state_code g = Some selected_state)) geo_df in
  map (fun g => index (base g)) state_trials_geo.

(** Lines 431-443. *)
Definition state_trials_original (original_df : DataFrame) (geo_df : list GeoRow)
    (selected_state : string) : DataFrame :=
  if String.eqb selected_state ALL_STATES then original_df
  else
    loc original_df
        (index_intersection (map index (rows original_df))
                            (state_trial_ids geo_df selected_state)).

(** ** Ratios *)

(** Python's [a / b] on counts.  Exact rationals stand for the floats; the
    division raises on a zero denominator, which is the strictest reading
    (NumPy scalars would give [inf] or [nan] with a warning instead). *)
Definition truediv (a b : Z) : result Q :=
  if (b =? 0)%Z then Raise ZeroDivisionError
  else Ok (inject_Z a / inject_Z b)%Q.

(** [a / b * 100]. *)
Definition percent (a b : Z) : result Q :=
  q ← truediv a b; Ok (q * 100)%Q.

(** [df[name].sum() if name in df.columns else 0]. *)
Definition boolean_sum (name : string) (field : Row → option Z) (df : DataFrame) : Z :=
  if has_column name df then series_sum (map field (rows df)) else 0%Z.

(** [st.caption(f"{num/len(df)*100:.1f}% ...")] under [if len(df) > 0]:
    [None] when no caption is written. *)
Definition guarded_caption (num : Z) (df : DataFrame) : result (option Q) :=
  if (0 <? length (rows df))%nat then
    p ← percent num (Z.of_nat (length (rows df))); Ok (Some p)
  else Ok None.

(** What the language-criteria block of a tab displays. *)
Record LanguageStats : Type := mkLanguageStats {
  english_included : Z;
  english_caption : option Q;
  non_english_excluded : Z;
  non_english_caption : option Q;
  total_with_other : nat;
  other_caption : option Q;
  total_languages : nat;
  avg_langs : Q;
  (** [None] is the text [N/A]. *)
  avg_metric : option Q;
  (** The bar chart's frame (language, trials, percentage), when drawn. *)
  lang_df : option (list (string * nat * Q))
}.

(** Lines 223-227: the [Percentage] column is every count divided by
    [total_with_other]. *)
Definition language_frame (language_counts : gmap string nat) (total_with_other : nat)
    : result (list (string * nat * Q)) :=
  apply_series
    (fun '(lang, n) => p ← percent (Z.of_nat n) (Z.of_nat total_with_other);
                       Ok (lang, n, p))
    (map_to_list language_counts).

(** Lines 187-259 for the category tab; lines 303-375 repeat the same code
    on the sub-category selection. *)
Definition language_stats (df : DataFrame) : result LanguageStats :=
  let english_included := boolean_sum "english_is_inclusion" english_is_inclusion df in
  c1 ← guarded_caption english_included df;
  let non_english_excluded :=
    boolean_sum "non_english_is_exclusion" non_english_is_exclusion df in
  c2 ← guarded_caption non_english_excluded df;
  '(total_with_other, total_languages, language_counts) ← count_other_languages df;
  c3 ← guarded_caption (Z.of_nat total_with_other) df;
  avg_langs ← (if (0 <? total_with_other)%nat
               then truediv (Z.of_nat total_languages) (Z.of_nat total_with_other)
               else Ok 0%Q);
  let avg_metric := if (0 <? total_with_other)%nat then Some avg_langs else None in
  frame ← (if negb (bool_decide (language_counts = ∅))
           then f ← language_frame language_counts total_with_other; Ok (Some f)
           else Ok None);
  Ok {| english_included := english_included; english_caption := c1;
        non_english_excluded := non_english_excluded; non_english_caption := c2;
        total_with_other := total_with_other; other_caption := c3;
        total_languages := total_languages;
        avg_langs := avg_langs; avg_metric := avg_metric;
        lang_df := frame |}.

(** What the geographic tab displays for a selection. *)
Record StateStats : Type := mkStateStats {
  total_trials : nat;
  percentage : Q;
  state_english_caption : Q;
  state_non_english_caption : Q;
  state_other_caption : Q;
  state_avg_langs : Q;
  state_avg_metric : option Q;
  state_lang_df : option (list (string * nat * Q))
}.

(** Lines 446-536 on the selection [sel] of [original_df]: [None] is the
    notice that no trial was found. *)
Definition state_stats (original_df sel : DataFrame) : result (option StateStats) :=
  let total_trials := length (rows sel) in
  if (0 <? total_trials)%nat then
    percentage ← percent (Z.of_nat total_trials) (Z.of_nat (length (rows original_df)));
    let english_included := boolean_sum "english_is_inclusion" english_is_inclusion sel in
    c1 ← percent english_included (Z.of_nat total_trials);
    let non_english_excluded :=
      boolean_sum "non_english_is_exclusion" non_english_is_exclusion sel in
    c2 ← percent non_english_excluded (Z.of_nat total_trials);
    '(total_with_other, total_languages, language_counts) ← count_other_languages sel;
    c3 ← percent (Z.of_nat total_with_other) (Z.of_nat total_trials);
    avg_langs ← (if (0 <? total_with_other)%nat
                 then truediv (Z.of_nat total_languages) (Z.of_nat total_with_other)
                 else Ok 0%Q);
    let avg_metric := if (0 <? total_with_other)%nat then Some avg_langs else None in
    frame ← (if negb (bool_decide (language_counts = ∅))
             then f ← language_frame language_counts total_with_other; Ok (Some f)
             else Ok None);
    Ok (Some {| total_trials := total_trials; percentage := percentage;
                state_english_caption := c1; state_non_english_caption := c2;
                state_other_caption := c3;
                state_avg_langs := avg_langs; state_avg_metric := avg_metric;
                state_lang_df := frame |})
  else Ok None.

(** The geographic tab from the two loaded tables (lines 393, 431-536):
    nothing is computed when the geo table is empty. *)
Definition state_tab (original_df : DataFrame) (geo_df : list GeoRow)
    (selected_state : string) : result (option StateStats) :=
  match geo_df with
  | [] => Ok None
  | _ :: _ => state_stats original_df (state_trials_original original_df geo_df selected_state)
  end.

(** ** Decidable equality *)

#[global] Instance cell_eq_dec : EqDecision cell.
Proof. solve_decision. Defined.

#[global] Instance Row_eq_dec : EqDecision Row.
Proof. solve_decision. Defined.

(** ** Notions of the specification *)

(** A record's [other_language_criteria] is non-empty, in the words of the
    specification: a string is there and it is not the empty string. *)
Definition nonempty_criteria (r : Row) : bool :=
  match other_language_criteria r with
  | Some s => Str.truthy s
  | None => false
  end.

(** A record's [other_language_criteria] is not missing. *)
Definition present_criteria (r : Row) : bool :=
  match other_language_criteria r with
  | Some _ => true
  | None => false
  end.

(** [len(parse_multi_value(record.sub_category))]; a call that raised would
    count for nothing. *)
Definition token_count (r : Row) : nat :=
  match parse_sub_category (Scalar (sub_category r)) with
  | Ok l => length l
  | Raise _ => 0
  end.

(** The row carries a sub-category (its cell is not missing). *)
Definition has_sub_category (r : Row) : bool :=
  match sub_category r with
  | Str _ => true
  | _ => false
  end.

(** The number of times [c] occurs in [s]. *)
Fixpoint count_char (c : ascii) (s : string) : nat :=
  match s with
  | EmptyString => 0
  | String d s' => (if Ascii.eqb d c then 1 else 0) + count_char c s'
  end.

(** An unbalanced bracket string, in the specification's words: its opening
    and closing brackets differ in number. *)
Definition unbalanced (s : string) : bool :=
  negb (count_char "[" s =? count_char "]" s)%nat.

(** How often [x] occurs in [l]. *)
Definition occurrences {A : Type} `{EqDecision A} (x : A) (l : list A) : nat :=
  length (List.filter (fun y => bool_decide (y = x)) l).

(** [token in parse_multi_value(record.sub_category)]; a call that raised
    would match nothing. *)
Definition has_token (token : string) (r : Row) : bool :=
  match parse_sub_category (Scalar (sub_category r)) with
  | Ok l => bool_decide (token ∈ l)
  | Raise _ => false
  end.

Fixpoint all_digits (z : string) : bool :=
  match z with
  | EmptyString => true
  | String c z' => Str.is_digit c && all_digits z'
  end.

(** Five characters, all digits. *)
Definition five_digits (z : string) : bool :=
  (String.length z =? 5)%nat && all_digits z.

(** [z] is the first five consecutive digits of [s]: five digits in a row,
    taken where such a row starts leftmost, whether or not more digits
    follow or precede them. *)
Definition first_five_digits (s z : string) : Prop :=
  ∃ pre post,
    s = pre +:+ z +:+ post ∧ five_digits z = true
    ∧ ∀ pre' z' post',
        s = pre' +:+ z' +:+ post' → five_digits z' = true →
        (String.length pre ≤ String.length pre')%nat.

(** [s] has no five digits in a row. *)
Definition no_five_digits (s : string) : Prop :=
  ∀ pre z post, s = pre +:+ z +:+ post → five_digits z = false.

(** The maximal runs of digits of a string, left to right. *)
Definition starts_with_digit (s : string) : bool :=
  match s with
  | EmptyString => false
  | String d _ => Str.is_digit d
  end.

Fixpoint digit_runs (s : string) : list string :=
  match s with
  | EmptyString => []
  | String c s' =>
      if Str.is_digit c then
        if starts_with_digit s' then
          match digit_runs s' with
          | r :: rs => String c r :: rs
          | [] => [String c EmptyString]
          end
        else String c EmptyString :: digit_runs s'
      else digit_runs s'
  end.

(** The first run of exactly five digits, in the words of the
    specification: the first maximal run of digits whose length is five. *)
Definition first_exact_run (s : string) : option string :=
  head (List.filter (fun r => (String.length r =? 5)%nat) (digit_runs s)).




(** The frame of the language bar chart as lines 223-227 fill it: every
    counted language with its count and that count over [total_with_other],
    in percent. *)
Definition frame_of (language_counts : gmap string nat) (total_with_other : nat)
    : list (string * nat * Q) :=
  map (fun '(lang, n) =>
         (lang, n, (inject_Z (Z.of_nat n) / inject_Z (Z.of_nat total_with_other) * 100)%Q))
      (map_to_list language_counts).


(** ** Scenarios of the specification *)

Definition e2e_columns : list string :=
  ["id"; "category"; "sub_category"; "english_is_inclusion"; "other_language_criteria"].

Definition record_1 : Row :=
  {| index := 1; category := Some "CVD";
     sub_category := Str "Hypertension, Stroke";
     english_is_inclusion := Some 1%Z; non_english_is_exclusion := None;
     other_language_criteria := Some "Spanish"; first_zipcode := NaN |}.

(** Record 2, with its [other_language_criteria] left open: the empty string
    of the scenario, or a missing value as [pd.read_csv] gives for an empty
    field. *)
Definition record_2 (other : option string) : Row :=
  {| index := 2; category := Some "CVD"; sub_category := Str "Hypertension";
     english_is_inclusion := Some 0%Z; non_english_is_exclusion := None;
     other_language_criteria := other; first_zipcode := NaN |}.

Definition e2e_table (other : option string) : DataFrame :=
  read_csv e2e_columns [record_1; record_2 other].


(** A file of one record, record 2 of the scenario, whose
    [other_language_criteria] column therefore holds no value. *)
Definition empty_criteria_file : DataFrame :=
  read_csv e2e_columns [record_2 None].

(** A table of one record without sub-category (a category selection of a
    larger file). *)
Definition uncategorized_table : DataFrame :=
  {| columns := e2e_columns;
     rows := [ {| index := 0; category := Some "CVD"; sub_category := NaN;
                  english_is_inclusion := None; non_english_is_exclusion := None;
                  other_language_criteria := None; first_zipcode := NaN |} ];
     criteria_dtype := object |}.

(** A bare record with the given label and sub-category. *)
Definition trial (i : Z) (sub : cell) : Row :=
  {| index := i; category := None; sub_category := sub;
     english_is_inclusion := None; non_english_is_exclusion := None;
     other_language_criteria := None; first_zipcode := NaN |}.

(** State filter scenario: the base table holds the identifiers 1, 2, 3; the
    geo table retains 1 and 3, both in California. *)
Definition base_123 : DataFrame :=
  read_csv ["id"; "first_zipcode"] [trial 1 NaN; trial 2 NaN; trial 3 NaN].

Definition geo_13 : list GeoRow :=
  [ {| base := trial 1 NaN; zip_clean := "94305"; state_code := Some "CA" |};
    {| base := trial 3 NaN; zip_clean := "90210"; state_code := Some "CA" |} ].

(** A table whose second record names the same sub-category twice. *)
Definition stroke_table : DataFrame :=
  read_csv ["id"; "sub_category"]
           [trial 0 (Str "Hypertension"); trial 1 (Str "Stroke, Stroke")].

(** A geocoder that knows one zip code, answers without a state for the
    zip code [00000], and has no row for any other. *)
Definition one_zip_geocoder (codes : list string) : list (option string * option string) :=
  omap (fun z => if String.eqb z "94305" then Some (Some z, Some "CA")
                 else if String.eqb z "00000" then Some (Some z, None)
                 else None) codes.

Definition with_zip (i : Z) (zip : cell) : Row :=
  {| index := i; category := None; sub_category := NaN;
     english_is_inclusion := None; non_english_is_exclusion := None;
     other_language_criteria := None; first_zipcode := zip |}.

(** Two records whose digits come in longer runs: a phone number before
    the zip code, and a zip+4 code written without its hyphen. *)
Definition long_run_table : DataFrame :=
  read_csv ["first_zipcode"]
           [with_zip 0 (Str "(650) 7231234 / 94305"); with_zip 1 (Str "943051234")].

(** Five records: a zip+4 code, no digits, a code without state, a code the
    geocoder does not know, and no zip code at all. *)
Definition zip_table : DataFrame :=
  read_csv ["first_zipcode"]
           [with_zip 0 (Str "94305-1234"); with_zip 1 (Str "n/a");
            with_zip 2 (Str "00000"); with_zip 3 (Str "99999"); with_zip 4 NaN].

(** ** Further code of the dashboard *)

(** Line 152: the counts behind the category pie chart and the options of
    the category selector. *)
Definition category_counts (original_df : DataFrame) : gmap string nat :=
  value_counts (dropna (map category (rows original_df))).

(** ** Further notions *)

(** The sum of the counts of a [value_counts] result. *)
Definition counts_total (m : gmap string nat) : nat :=
  map_fold (fun _ n acc => n + acc) 0 m.

(** [", ".join(tokens)]. *)
Fixpoint join_comma (tokens : list string) : string :=
  match tokens with
  | [] => EmptyString
  | [t] => t
  | t :: rest => t +:+ ", " +:+ join_comma rest
  end.

(** A token as the parser writes it for a plain string: not empty, free of
    commas, and without white space at either end. *)
Definition clean_token (t : string) : Prop :=
  t ≠ EmptyString ∧ Str.contains "," t = false ∧ Str.strip t = t.

(** A geocoder that answers every code it is asked with one row, carrying
    the state [table] knows for it, if any. *)
Definition table_geocoder (table : string → option string) (codes : list string)
    : list (option string * option string) :=
  map (fun z => (Some z, table z)) codes.

(** A column of flags: every value is 0, 1 or missing. *)
Definition flag_column (field : Row → option Z) (df : DataFrame) : Prop :=
  ∀ r, r ∈ rows df → field r = None ∨ field r = Some 0%Z ∨ field r = Some 1%Z.

(** * Properties *)

(** ** Stripping and splitting *)

Module StrFacts.
Import Str.

Lemma truthy_cons c s : truthy (String c s) = true.
Proof. reflexivity. Qed.

Lemma truthy_nonempty s : truthy s = true → s ≠ EmptyString.
Proof. by destruct s. Qed.

Lemma lstrip_keep p c s : p c = false → lstrip p (String c s) = String c s.
Proof. intros Hc; simpl; by rewrite Hc. Qed.

Lemma rstrip_keep p c s : p c = false → rstrip p (String c s) = String c (rstrip p s).
Proof. intros Hc; simpl; rewrite Hc; by destruct (rstrip p s). Qed.

(** What [lstrip] leaves is empty or begins with a kept character. *)
Lemma lstrip_head p s :
  lstrip p s = EmptyString ∨ ∃ c s', lstrip p s = String c s' ∧ p c = false.
Proof.
  induction s as [|c s IH]; simpl; [by left|].
  destruct (p c) eqn:Hc; [exact IH|]. right; eauto.
Qed.

Lemma rstrip_idemp p s : rstrip p (rstrip p s) = rstrip p s.
Proof.
  induction s as [|c s IH]; simpl; [done|].
  destruct (rstrip p s) as [|d r] eqn:Hr.
  - destruct (p c) eqn:Hc; simpl; [done|by rewrite Hc].
  - change (rstrip p (String c (String d r)) = String c (String d r)).
    simpl in IH |- *. simpl. by rewrite IH.
Qed.

Lemma strip_chars_keep p c s :
  p c = false → strip_chars p (String c s) = String c (rstrip p s).
Proof.
  intros Hc. unfold strip_chars. by rewrite lstrip_keep, rstrip_keep.
Qed.

Lemma strip_chars_idemp p s : strip_chars p (strip_chars p s) = strip_chars p s.
Proof.
  unfold strip_chars at 2 3.
  destruct (lstrip_head p s) as [H | (c & s' & H & Hc)]; rewrite H; [done|].
  rewrite rstrip_keep by done.
  rewrite strip_chars_keep by done. by rewrite rstrip_idemp.
Qed.

Lemma strip_idemp s : strip (strip s) = strip s.
Proof. apply strip_chars_idemp. Qed.

Lemma split_cons sep s : ∃ h t, split sep s = h :: t.
Proof.
  induction s as [|c s (h & t & IH)]; simpl; [eauto|].
  destruct (Ascii.eqb c sep); [eauto|]. rewrite IH. eauto.
Qed.

(** The first piece of a split keeps a leading character that is not the
    separator. *)
Lemma split_head sep c s :
  Ascii.eqb c sep = false → ∃ h t, split sep (String c s) = String c h :: t.
Proof.
  intros Hc. simpl. rewrite Hc.
  destruct (split_cons sep s) as (h & t & ->). eauto.
Qed.

Lemma filter_truthy_nonempty (l : list string) t :
  t ∈ List.filter truthy l → t ≠ EmptyString.
Proof.
  rewrite list_elem_of_In, filter_In. intros [_ Ht]. by apply truthy_nonempty.
Qed.

End StrFacts.

(** ** The parser *)

(** Every token [parse_str] returns is a non-empty string. *)
Lemma parse_str_nonempty s t : t ∈ parse_str s → t ≠ EmptyString.
Proof.
  unfold parse_str.
  destruct (Str.truthy (Str.strip s)) eqn:Hs; simpl; [|by intros ?%elem_of_nil].
  destruct (Str.startswith "[" (Str.strip s) && Str.endswith "]" (Str.strip s)).
  - destruct (Str.truthy (Str.strip (Str.slice_1_m1 (Str.strip s)))); simpl;
      [apply StrFacts.filter_truthy_nonempty|by intros ?%elem_of_nil].
  - destruct (Str.contains "," (Str.strip s));
      [apply StrFacts.filter_truthy_nonempty|].
    rewrite StrFacts.strip_idemp. intros ->%list_elem_of_singleton.
    by apply StrFacts.truthy_nonempty.
Qed.

(** On a cell the parser returns, and what it returns is fixed by the cell. *)
Lemma parse_sub_category_scalar c :
  parse_sub_category (Scalar c) = Ok (cell_tokens c).
Proof. by destruct c. Qed.

(** A string that, trimmed, opens with a bracket it does not close is read
    as a comma-separated or single value: its first token keeps the
    bracket. *)
Lemma parse_str_unclosed s :
  Str.startswith "[" (Str.strip s) = true →
  Str.endswith "]" (Str.strip s) = false →
  ∃ t l, parse_str s = t :: l ∧ Str.startswith "[" t = true.
Proof.
  intros Hopen Hclose. unfold parse_str. rewrite Hopen, Hclose.
  destruct (Str.strip s) as [|c v] eqn:Hv; [done|].
  simpl in Hopen. apply Ascii.eqb_eq in Hopen as ->.
  cbn [Str.truthy Str.is_empty negb andb].
  destruct (Str.contains "," (String "[" v)) eqn:Hcomma.
  - destruct (StrFacts.split_head "," "[" v eq_refl) as (h & t & ->).
    cbn [map]. unfold Str.strip at 1.
    rewrite StrFacts.strip_chars_keep by done. cbn [List.filter Str.truthy Str.is_empty negb].
    eauto.
  - rewrite <- Hv, StrFacts.strip_idemp, Hv. eauto.
Qed.

(** The list branch: a list of one element is returned as it is, any other
    list raises at the [isna] test. *)
Lemma parse_sub_category_list l :
  parse_sub_category (PyList l) =
  if (length l =? 1)%nat then Ok l else Raise ValueError.
Proof. destruct l as [|a [|b l]]; reflexivity. Qed.

Lemma parse_twice_spec c :
  parse_twice (Scalar c) =
  if (length (cell_tokens c) =? 1)%nat then Ok (cell_tokens c) else Raise ValueError.
Proof.
  unfold parse_twice. rewrite parse_sub_category_scalar. simpl.
  apply parse_sub_category_list.
Qed.

(** C2, as stated, fails: a bracket string that lacks its closing bracket is
    unbalanced, yet it is not answered with the empty list; it is split at
    the comma and its first token keeps the bracket. *)
Lemma parse_sub_category_unbalanced_kept :
  unbalanced "[A, B" = true
  ∧ parse_sub_category (Scalar (Str "[A, B")) = Ok ["[A"; "B"]
  ∧ parse_sub_category (Scalar (Str "[A, B")) ≠ Ok [].
Proof. repeat split; [reflexivity..|discriminate]. Qed.

(** C2 (amended): the listed cases hold - [A, B] with or without enclosing
    brackets gives the two tokens, the empty string and a missing value
    give the empty list, [Single] gives one token; on a missing, numeric or
    string input the parser never raises; and a string that, trimmed, opens
    with a bracket it does not close is not rejected: it yields at least one
    token, the first of which keeps the bracket. *)
Theorem parse_sub_category_cases :
  parse_sub_category (Scalar (Str "A, B")) = Ok ["A"; "B"]
  ∧ parse_sub_category (Scalar (Str "[A, B]")) = Ok ["A"; "B"]
  ∧ parse_sub_category (Scalar (Str "")) = Ok []
  ∧ parse_sub_category (Scalar NaN) = Ok []
  ∧ parse_sub_category (Scalar (Str "Single")) = Ok ["Single"]
  ∧ (∀ c : cell, ∃ l, parse_sub_category (Scalar c) = Ok l)
  ∧ (∀ s : string,
       Str.startswith "[" (Str.strip s) = true →
       Str.endswith "]" (Str.strip s) = false →
       ∃ t l, parse_sub_category (Scalar (Str s)) = Ok (t :: l)
              ∧ Str.startswith "[" t = true).
Proof.
  repeat split; try reflexivity.
  - intros c. rewrite parse_sub_category_scalar. eauto.
  - intros s Hopen Hclose. rewrite parse_sub_category_scalar. cbn [cell_tokens].
    destruct (parse_str_unclosed s Hopen Hclose) as (t & l & -> & Ht). eauto.
Qed.

Lemma parse_sub_category_cases_witness :
  ∃ t l, parse_sub_category (Scalar (Str " [A, B ")) = Ok (t :: l)
         ∧ Str.startswith "[" t = true.
Proof.
  destruct parse_sub_category_cases as (_ & _ & _ & _ & _ & _ & H).
  apply (H " [A, B "); reflexivity.
Defined.

(** C9: the parser applied to its own output.  On the string [A, B] the
    first call returns the two tokens; the second call, on that list, raises
    [ValueError] at the [isna] test instead of returning the list as it
    is. *)
Theorem parse_sub_category_twice_raises :
  parse_sub_category (Scalar (Str "A, B")) = Ok ["A"; "B"]
  ∧ parse_sub_category (PyList ["A"; "B"]) = Raise ValueError
  ∧ parse_twice (Scalar (Str "A, B")) = Raise ValueError.
Proof. repeat split. Qed.

(** C10: on every input that is not a list (missing, number or string) the
    parser returns, and no returned token is the empty string. *)
Theorem parse_sub_category_tokens_nonempty (c : cell) :
  ∃ l, parse_sub_category (Scalar c) = Ok l
       ∧ ∀ t, t ∈ l → t ≠ EmptyString.
Proof.
  rewrite parse_sub_category_scalar. eexists; split; [reflexivity|].
  destruct c as [| z | s]; try (by intros t ?%elem_of_nil).
  intros t. apply parse_str_nonempty.
Qed.

Lemma parse_sub_category_tokens_nonempty_witness :
  ∃ l, parse_sub_category (Scalar (Str "A, , ' '")) = Ok l
       ∧ ∀ t, t ∈ l → t ≠ EmptyString.
Proof. apply (parse_sub_category_tokens_nonempty (Str "A, , ' '")). Defined.

(** ** Series helpers *)

Lemma apply_series_ok {A B : Type} (f : A → result B) (g : A → B) (l : list A) :
  (∀ x, x ∈ l → f x = Ok (g x)) → apply_series f l = Ok (map g l).
Proof.
  induction l as [|x l IH]; intros Hf; simpl; [done|].
  rewrite (Hf x) by left. simpl.
  rewrite IH by (intros y Hy; apply Hf; by right). done.
Qed.

Lemma boolean_mask_map {A : Type} (p : A → bool) (l : list A) :
  boolean_mask l (map p l) = List.filter p l.
Proof.
  induction l as [|x l IH]; simpl; [done|]. rewrite IH. by destruct (p x).
Qed.

Lemma occurrences_not_in {A : Type} `{EqDecision A} (x : A) (l : list A) :
  x ∉ l → occurrences x l = 0.
Proof.
  unfold occurrences. induction l as [|y l IH]; simpl; [done|].
  intros Hx. rewrite bool_decide_eq_false_2 by (intros ->; apply Hx; left).
  apply IH. intros ?; apply Hx; by right.
Qed.

Lemma occurrences_cons {A : Type} `{EqDecision A} (x y : A) (l : list A) :
  occurrences x (y :: l) = (if decide (y = x) then 1 else 0) + occurrences x l.
Proof.
  unfold occurrences. simpl. case_bool_decide; case_decide; done.
Qed.

Lemma value_counts_lookup (l : list string) (x : string) :
  value_counts l !! x = if decide (x ∈ l) then Some (occurrences x l) else None.
Proof.
  induction l as [|y l IH]; [done|].
  cbn [value_counts foldr]. fold (value_counts l).
  rewrite occurrences_cons, lookup_insert.
  destruct (decide (y = x)) as [->|Hne].
  - rewrite decide_True by left. rewrite IH.
    destruct (decide (x ∈ l)) as [|Hx]; simpl; [done|].
    by rewrite occurrences_not_in.
  - rewrite IH. destruct (decide (x ∈ l)) as [Hx|Hx].
    + by rewrite decide_True by (by right).
    + rewrite decide_False; [done|]. intros [?|?]%elem_of_cons; by simplify_eq.
Qed.

Lemma value_counts_empty (l : list string) : value_counts l = ∅ → l = [].
Proof.
  destruct l as [|x l]; [done|]. intros H.
  assert (value_counts (x :: l) !! x = None) as Hx by (by rewrite H).
  rewrite value_counts_lookup, decide_True in Hx by left. done.
Qed.

Lemma notna_sum_dropna {A : Type} (col : list (option A)) :
  notna_sum col = length (dropna col).
Proof.
  unfold notna_sum, dropna. induction col as [|[a|] col IH]; simpl; [done|..].
  - by rewrite IH.
  - exact IH.
Qed.

(** ** The other-language summary *)

Lemma notna_sum_present (l : list Row) :
  notna_sum (map other_language_criteria l) = length (List.filter present_criteria l).
Proof.
  unfold notna_sum, present_criteria.
  induction l as [|r l IH]; simpl; [done|].
  destruct (other_language_criteria r); simpl; by rewrite ?IH.
Qed.

(** The three ways the summary ends: zeros without the column, the counts
    on a column of strings, [AttributeError] on a column without any. *)
Lemma count_other_languages_absent (df : DataFrame) :
  has_column "other_language_criteria" df = false →
  count_other_languages df = Ok (0, 0, ∅).
Proof. intros Hcol. unfold count_other_languages. by rewrite Hcol. Qed.

Lemma count_other_languages_object (df : DataFrame) :
  has_column "other_language_criteria" df = true →
  criteria_dtype df = object →
  count_other_languages df =
  let pieces := map Str.strip
                    (concat (map (Str.split ",")
                                 (dropna (map other_language_criteria (rows df))))) in
  Ok (length (dropna (map other_language_criteria (rows df))),
      length pieces, value_counts pieces).
Proof.
  intros Hcol Hd. unfold count_other_languages. rewrite Hcol, Hd. cbv zeta.
  cbn [str_accessor mbind result_bind]. by rewrite notna_sum_dropna.
Qed.

Lemma count_other_languages_float64 (df : DataFrame) :
  has_column "other_language_criteria" df = true →
  criteria_dtype df = float64 →
  count_other_languages df = Raise AttributeError.
Proof. intros Hcol Hd. unfold count_other_languages. by rewrite Hcol, Hd. Qed.

(** Whatever the summary returns, its first component is the number of
    records whose [other_language_criteria] is present. *)
Lemma count_other_languages_present (df : DataFrame) a b (c : gmap string nat) :
  count_other_languages df = Ok (a, b, c) →
  a = if has_column "other_language_criteria" df
      then length (List.filter present_criteria (rows df)) else 0.
Proof.
  unfold count_other_languages.
  destruct (has_column "other_language_criteria" df); [|by intros [= <- _ _]].
  destruct (criteria_dtype df); cbn [str_accessor mbind result_bind]; [|done].
  intros [= <- _ _]. apply notna_sum_present.
Qed.

(** C1: a file whose [other_language_criteria] column holds no value at all.
    No record of it has a non-empty value, so the summary should report 0
    trials; the call raises [AttributeError] instead.  The sibling paths do
    return zeros: a table without the column, and a selection without any
    value out of a file that has some.  On the end-to-end scenario as read
    from a file the summary is 1 trial, 1 mention and [Spanish: 1]. *)
Theorem count_other_languages_empty_column_raises :
  length (List.filter nonempty_criteria (rows empty_criteria_file)) = 0
  ∧ count_other_languages empty_criteria_file = Raise AttributeError
  ∧ count_other_languages (read_csv ["id"; "category"] [record_2 None]) = Ok (0, 0, ∅)
  ∧ count_other_languages
      (select (fun r => bool_decide (index r = 2%Z)) (e2e_table None)) = Ok (0, 0, ∅)
  ∧ count_other_languages (e2e_table None) = Ok (1, 1, {[ "Spanish" := 1 ]}).
Proof. repeat split; by vm_compute. Qed.

(** ** The exploded sub-category view *)

Lemma token_count_tokens r : token_count r = length (cell_tokens (sub_category r)).
Proof. unfold token_count. by rewrite parse_sub_category_scalar. Qed.

Lemma explode_row_length r l : length (explode_row r l) = max 1 (length l).
Proof. destruct l; simpl; [done|]. by rewrite length_map. Qed.

Lemma explode_row_tokens r l :
  dropna (map (fun x => cell_string (sub_category x)) (explode_row r l)) = l.
Proof.
  assert (∀ l', dropna (map (fun x => cell_string (sub_category x))
                   (map (fun t => set_sub_category r (Str t)) l')) = l') as Hmap.
  { unfold dropna. induction l' as [|t l' IH]; [done|].
    simpl. f_equal. exact IH. }
  destruct l as [|t l]; [done|]. apply Hmap.
Qed.

Lemma has_sub_category_string (l : list Row) :
  length (List.filter has_sub_category l) =
  length (dropna (map (fun x => cell_string (sub_category x)) l)).
Proof.
  unfold dropna, has_sub_category.
  induction l as [|r l IH]; simpl; [done|].
  destruct (sub_category r); simpl; try f_equal; exact IH.
Qed.

Lemma dropna_app {A : Type} (l1 l2 : list (option A)) :
  dropna (l1 ++ l2) = dropna l1 ++ dropna l2.
Proof.
  unfold dropna. induction l1 as [|[a|] l1 IH]; simpl; [done|..];
    try f_equal; exact IH.
Qed.

(** The view is always produced: on the cells of a table the parser does
    not raise. *)
Lemma sub_cat_df_ok (df : DataFrame) :
  sub_cat_df df =
  Ok {| columns := columns df;
        rows := concat (map (fun r => explode_row r (cell_tokens (sub_category r)))
                            (rows df));
        criteria_dtype := criteria_dtype df |}.
Proof.
  unfold sub_cat_df.
  rewrite (apply_series_ok _ (fun r => (r, cell_tokens (sub_category r))))
    by (intros r _; by rewrite parse_sub_category_scalar).
  simpl. do 2 f_equal. rewrite map_map. done.
Qed.

(** C3, as stated, fails: a record whose sub-category is missing parses to
    no token, yet the exploded view holds one row for it. *)
Lemma sub_cat_df_keeps_uncategorized :
  ∃ out, sub_cat_df uncategorized_table = Ok out
         ∧ length (rows out) = 1
         ∧ sum_list (map token_count (rows uncategorized_table)) = 0
         ∧ length (rows out) ≠ sum_list (map token_count (rows uncategorized_table)).
Proof. eexists. split; [reflexivity|]. by vm_compute. Qed.

Lemma exploded_length (l : list Row) :
  length (concat (map (fun r => explode_row r (cell_tokens (sub_category r))) l)) =
  sum_list (map (fun r => max 1 (token_count r)) l).
Proof.
  induction l as [|r l IH]; [done|]. cbn [map concat].
  rewrite length_app, explode_row_length, IH, token_count_tokens. reflexivity.
Qed.

Lemma exploded_tokens (l : list Row) :
  dropna (map (fun x => cell_string (sub_category x))
           (concat (map (fun r => explode_row r (cell_tokens (sub_category r))) l))) =
  concat (map (fun r => cell_tokens (sub_category r)) l).
Proof.
  induction l as [|r l IH]; [done|]. cbn [map concat].
  by rewrite map_app, dropna_app, explode_row_tokens, IH.
Qed.

Lemma tokens_length (l : list Row) :
  length (concat (map (fun r => cell_tokens (sub_category r)) l)) =
  sum_list (map token_count l).
Proof.
  induction l as [|r l IH]; [done|]. cbn [map concat].
  rewrite length_app, IH, token_count_tokens. reflexivity.
Qed.

(** The end-to-end scenario: three rows, two for record 1 and one for
    record 2. *)
Example sub_cat_df_e2e :
  ∃ out, sub_cat_df (e2e_table (Some "")) = Ok out
         ∧ map (fun r => (index r, sub_category r)) (rows out) =
           [(1%Z, Str "Hypertension"); (1%Z, Str "Stroke"); (2%Z, Str "Hypertension")]
         ∧ sub_cat_counts out = {[ "Hypertension" := 2; "Stroke" := 1 ]}.
Proof. eexists. split; [reflexivity|]. split; [reflexivity|by vm_compute]. Qed.

(** C3 (amended): for every table the exploded view is produced; a record
    contributes one row per token, and a record without tokens contributes
    one row whose sub-category is missing, so the row count is the sum over
    records of the larger of 1 and the number of tokens.  The rows that
    carry a sub-category number the sum of the token counts, and the
    sub-category statistics count exactly the tokens. *)
Theorem sub_cat_df_row_count (df : DataFrame) :
  ∃ out, sub_cat_df df = Ok out
    ∧ length (rows out) = sum_list (map (fun r => max 1 (token_count r)) (rows df))
    ∧ length (List.filter has_sub_category (rows out)) =
      sum_list (map token_count (rows df))
    ∧ sub_cat_counts out =
      value_counts (concat (map (fun r => cell_tokens (sub_category r)) (rows df))).
Proof.
  rewrite sub_cat_df_ok. eexists; split; [reflexivity|].
  unfold sub_cat_counts. cbn [rows]. split; [|split].
  - apply exploded_length.
  - by rewrite has_sub_category_string, exploded_tokens, tokens_length.
  - by rewrite exploded_tokens.
Qed.

(** ** The selectors *)

Lemma has_token_tokens token r :
  has_token token r = bool_decide (token ∈ cell_tokens (sub_category r)).
Proof. unfold has_token. by rewrite parse_sub_category_scalar. Qed.

Lemma occurrences_filter {A : Type} `{EqDecision A} (p : A → bool) (x : A) (l : list A) :
  occurrences x (List.filter p l) = if p x then occurrences x l else 0.
Proof.
  induction l as [|y l IH]; [by destruct (p x)|].
  cbn [List.filter]. destruct (p y) eqn:Hy.
  - rewrite !occurrences_cons, IH.
    destruct (p x) eqn:Hx; [done|]. case_decide; simplify_eq; [congruence|done].
  - rewrite occurrences_cons, IH.
    destruct (p x) eqn:Hx; [|done]. case_decide; simplify_eq; [congruence|done].
Qed.

(** A specific sub-category selects, from the table it is given, the rows
    whose re-parsed field holds the token. *)
Lemma sub_cat_filtered_df_ok (df : DataFrame) (sel : string) :
  String.eqb sel ALL_SUB_CATEGORIES = false →
  sub_cat_filtered_df df sel = Ok (select (has_token sel) df).
Proof.
  intros Hsel. unfold sub_cat_filtered_df. rewrite Hsel.
  rewrite (apply_series_ok _ (fun c => bool_decide (sel ∈ cell_tokens c)))
    by (intros c _; by rewrite parse_sub_category_scalar).
  simpl. unfold select. do 2 f_equal.
  rewrite map_map, boolean_mask_map.
  apply filter_ext. intros r. by rewrite has_token_tokens.
Qed.

(** C6: with a specific token, the sub-category selector returns the rows of
    the table it is given - the original records, not the exploded ones -
    whose re-parsed [sub_category] contains the token, in their order; a
    selected record occurs in the result as often as in the table, whatever
    the number of its tokens that match. *)
Theorem sub_cat_filtered_df_once (df : DataFrame) (sel : string) :
  String.eqb sel ALL_SUB_CATEGORIES = false →
  ∃ out, sub_cat_filtered_df df sel = Ok out
    ∧ columns out = columns df
    ∧ rows out = List.filter (has_token sel) (rows df)
    ∧ ∀ r, occurrences r (rows out) =
           if has_token sel r then occurrences r (rows df) else 0.
Proof.
  intros Hsel. rewrite sub_cat_filtered_df_ok by done.
  eexists; split; [reflexivity|]. repeat split.
  intros r. apply occurrences_filter.
Qed.

Lemma sub_cat_filtered_df_once_witness :
  String.eqb "Stroke" ALL_SUB_CATEGORIES = false
  ∧ ∃ out, sub_cat_filtered_df stroke_table "Stroke" = Ok out
      ∧ columns out = columns stroke_table
      ∧ rows out = List.filter (has_token "Stroke") (rows stroke_table)
      ∧ ∀ r, occurrences r (rows out) =
             if has_token "Stroke" r then occurrences r (rows stroke_table) else 0.
Proof.
  split; [reflexivity|].
  apply (sub_cat_filtered_df_once stroke_table "Stroke"). reflexivity.
Defined.

(** The record that names the selected sub-category twice is returned once,
    while the exploded view holds it twice. *)
Example stroke_selected_once :
  sub_cat_filtered_df stroke_table "Stroke" =
    Ok {| columns := ["id"; "sub_category"];
          rows := [trial 1 (Str "Stroke, Stroke")];
          criteria_dtype := float64 |}
  ∧ sub_cat_df stroke_table =
    Ok {| columns := ["id"; "sub_category"];
          rows := [trial 0 (Str "Hypertension");
                   trial 1 (Str "Stroke"); trial 1 (Str "Stroke")];
          criteria_dtype := float64 |}.
Proof. split; reflexivity. Qed.

(** C7: at each of the three selectors the ALL sentinel returns the table it
    is given, the same rows in the same order. *)
Theorem all_selection_is_identity (T : DataFrame) (geo_df : list GeoRow) :
  filtered_df T ALL_CATEGORIES = T
  ∧ sub_cat_filtered_df T ALL_SUB_CATEGORIES = Ok T
  ∧ state_trials_original T geo_df ALL_STATES = T.
Proof. repeat split. Qed.

(** ** The state selector *)

Lemma index_intersection_nodup (idx other : list Z) :
  NoDup idx →
  index_intersection idx other = List.filter (fun i => bool_decide (i ∈ other)) idx.
Proof.
  induction 1 as [|i idx Hi _ IH]; [done|]. cbn [index_intersection List.filter].
  rewrite IH. destruct (bool_decide (i ∈ other)); [|done].
  rewrite bool_decide_eq_false_2; [done|].
  rewrite list_elem_of_In, filter_In, <- list_elem_of_In. by intros [? _].
Qed.

Lemma filter_index_absent (i : Z) (l : list Row) :
  i ∉ map index l → List.filter (fun r => bool_decide (index r = i)) l = [].
Proof.
  induction l as [|r l IH]; [done|]. cbn [map List.filter]. intros Hi.
  rewrite bool_decide_eq_false_2 by (intros <-; apply Hi; left).
  apply IH. intros ?; apply Hi; by right.
Qed.

(** With distinct labels, a label of the table selects its one row. *)
Lemma filter_index_unique (r : Row) (l : list Row) :
  NoDup (map index l) → r ∈ l →
  List.filter (fun x => bool_decide (index x = index r)) l = [r].
Proof.
  induction l as [|a l IH]; [by intros _ ?%elem_of_nil|].
  cbn [map List.filter]. intros [Ha Hl]%NoDup_cons [->|Hr]%elem_of_cons.
  - rewrite bool_decide_eq_true_2 by done. by rewrite filter_index_absent.
  - rewrite bool_decide_eq_false_2; [by apply IH|].
    intros Heq. apply Ha. rewrite Heq. by apply list_elem_of_fmap_2.
Qed.

Lemma loc_selected (all sel : list Row) :
  NoDup (map index all) → (∀ r, r ∈ sel → r ∈ all) →
  concat (map (fun i => List.filter (fun r => bool_decide (index r = i)) all)
              (map index sel)) = sel.
Proof.
  intros Hnd. induction sel as [|r sel IH]; [done|]. intros Hin.
  cbn [map concat]. rewrite filter_index_unique by (done || apply Hin; left).
  rewrite IH by (intros x Hx; apply Hin; by right). done.
Qed.

Lemma filter_map_index (p : Z → bool) (l : list Row) :
  List.filter p (map index l) = map index (List.filter (fun r => p (index r)) l).
Proof.
  induction l as [|r l IH]; [done|]. cbn [map List.filter].
  destruct (p (index r)); cbn [map]; by rewrite IH.
Qed.

Lemma state_trials_original_rows (original_df : DataFrame) (geo_df : list GeoRow)
    (sel : string) :
  String.eqb sel ALL_STATES = false →
  NoDup (map index (rows original_df)) →
  rows (state_trials_original original_df geo_df sel) =
  List.filter (fun r => bool_decide (index r ∈ state_trial_ids geo_df sel))
              (rows original_df).
Proof.
  intros Hsel Hnd. unfold state_trials_original, loc. rewrite Hsel. cbn [rows].
  rewrite index_intersection_nodup by done.
  rewrite (filter_map_index (fun i => bool_decide (i ∈ state_trial_ids geo_df sel))).
  apply loc_selected; [done|].
  intros r. rewrite !list_elem_of_In, filter_In. by intros [? _].
Qed.

(** C5: with a specific state code, and a base table of distinct
    identifiers, the state selector returns the base records whose
    identifier is that of a geo record with this state code: the identifiers
    of the matching geo records, intersected with those of the base table.
    In the scenario (base 1, 2, 3; geo 1 and 3, both in California)
    selecting California yields the records 1 and 3, without record 2. *)
Theorem state_trials_original_filter :
  (∀ (original_df : DataFrame) (geo_df : list GeoRow) (sel : string),
     String.eqb sel ALL_STATES = false →
     NoDup (map index (rows original_df)) →
     state_trial_ids geo_df sel =
       map (fun g => index (base g))
           (List.filter (fun g => bool_decide (state_code g = Some sel)) geo_df)
     ∧ rows (state_trials_original original_df geo_df sel) =
       List.filter (fun r => bool_decide (index r ∈ state_trial_ids geo_df sel))
                   (rows original_df))
  ∧ map index (rows (state_trials_original base_123 geo_13 "CA")) = [1%Z; 3%Z]
  ∧ trial 2 NaN ∉ rows (state_trials_original base_123 geo_13 "CA").
Proof.
  split; [|split].
  - intros original_df geo_df sel Hsel Hnd. split; [reflexivity|].
    by apply state_trials_original_rows.
  - reflexivity.
  - intros Hin%list_elem_of_In. vm_compute in Hin.
    destruct Hin as [?|[?|[]]]; discriminate.
Qed.

Lemma state_trials_original_filter_witness :
  String.eqb "CA" ALL_STATES = false
  ∧ NoDup (map index (rows base_123))
  ∧ rows (state_trials_original base_123 geo_13 "CA") =
    List.filter (fun r => bool_decide (index r ∈ state_trial_ids geo_13 "CA"))
                (rows base_123).
Proof.
  assert (NoDup (map index (rows base_123))) as Hnd
    by (apply (bool_decide_unpack _); reflexivity).
  split; [reflexivity|]. split; [exact Hnd|].
  destruct state_trials_original_filter as [H _].
  apply (H base_123 geo_13 "CA"); [reflexivity|exact Hnd].
Defined.

(** ** Ratios *)


Lemma percent_value (a b : Z) :
  b ≠ 0%Z → percent a b = Ok (inject_Z a / inject_Z b * 100)%Q.
Proof.
  intros Hb. unfold percent, truediv. by destruct (Z.eqb_spec b 0).
Qed.

Lemma guarded_caption_value (num : Z) (df : DataFrame) :
  guarded_caption num df =
  Ok (if (0 <? length (rows df))%nat
      then Some (inject_Z num / inject_Z (Z.of_nat (length (rows df))) * 100)%Q
      else None).
Proof.
  unfold guarded_caption. destruct (Nat.ltb_spec 0 (length (rows df))); [|done].
  by rewrite percent_value by lia.
Qed.

Lemma avg_langs_value (total_languages total_with_other : nat) :
  (if (0 <? total_with_other)%nat
   then truediv (Z.of_nat total_languages) (Z.of_nat total_with_other)
   else Ok 0%Q) =
  Ok (if (0 <? total_with_other)%nat
      then (inject_Z (Z.of_nat total_languages) / inject_Z (Z.of_nat total_with_other))%Q
      else 0%Q).
Proof.
  destruct (Nat.ltb_spec 0 total_with_other); [|done].
  unfold truediv. destruct (Z.eqb_spec (Z.of_nat total_with_other) 0); [lia|done].
Qed.

Lemma language_frame_value (language_counts : gmap string nat) (n : nat) :
  (0 < n)%nat → language_frame language_counts n = Ok (frame_of language_counts n).
Proof.
  intros Hn. unfold language_frame, frame_of.
  apply apply_series_ok. intros [lang k] _. by rewrite percent_value by lia.
Qed.

Lemma lang_df_value (language_counts : gmap string nat) (total_with_other : nat) :
  (language_counts ≠ ∅ → (0 < total_with_other)%nat) →
  (if negb (bool_decide (language_counts = ∅))
   then f ← language_frame language_counts total_with_other; Ok (Some f)
   else Ok None) =
  Ok (if bool_decide (language_counts = ∅) then None
      else Some (frame_of language_counts total_with_other)).
Proof.
  intros Hpos. case_bool_decide; [done|]. cbn [negb].
  by rewrite language_frame_value by auto.
Qed.

(** Languages are only counted from trials that are counted. *)
Lemma count_other_languages_positive (df : DataFrame) a b (c : gmap string nat) :
  count_other_languages df = Ok (a, b, c) → c ≠ ∅ → (0 < a)%nat.
Proof.
  unfold count_other_languages.
  destruct (has_column "other_language_criteria" df); [|by intros [= <- <- <-]].
  destruct (criteria_dtype df); cbn [str_accessor mbind result_bind]; [|done].
  intros [= <- <- <-] Hne. rewrite notna_sum_dropna.
  destruct (dropna (map other_language_criteria (rows df))) as [|x l]; simpl; [|lia].
  by destruct Hne.
Qed.


Lemma count_other_languages_returns (df : DataFrame) :
  criteria_dtype df = object ∨ has_column "other_language_criteria" df = false →
  ∃ r, count_other_languages df = Ok r.
Proof.
  intros Hd. unfold count_other_languages.
  destruct (has_column "other_language_criteria" df); [|by eexists].
  destruct Hd as [->|?]; [by eexists|done].
Qed.

(** The language block in terms of what the summary returned. *)
Lemma language_stats_unfold (df : DataFrame) a b (c : gmap string nat) :
  count_other_languages df = Ok (a, b, c) →
  let n := length (rows df) in
  let caption num :=
    if (0 <? n)%nat then Some (inject_Z num / inject_Z (Z.of_nat n) * 100)%Q else None in
  let avg := if (0 <? a)%nat
             then (inject_Z (Z.of_nat b) / inject_Z (Z.of_nat a))%Q else 0%Q in
  language_stats df =
  Ok {| english_included := boolean_sum "english_is_inclusion" english_is_inclusion df;
        english_caption :=
          caption (boolean_sum "english_is_inclusion" english_is_inclusion df);
        non_english_excluded :=
          boolean_sum "non_english_is_exclusion" non_english_is_exclusion df;
        non_english_caption :=
          caption (boolean_sum "non_english_is_exclusion" non_english_is_exclusion df);
        total_with_other := a; other_caption := caption (Z.of_nat a);
        total_languages := b;
        avg_langs := avg;
        avg_metric := if (0 <? a)%nat then Some avg else None;
        lang_df := if bool_decide (c = ∅) then None else Some (frame_of c a) |}.
Proof.
  intros Hc n caption avg. unfold language_stats.
  rewrite !guarded_caption_value, Hc. cbn [mbind result_bind].
  rewrite guarded_caption_value, avg_langs_value. cbn [mbind result_bind].
  rewrite lang_df_value by apply (count_other_languages_positive df a b c Hc).
  reflexivity.
Qed.

Lemma language_stats_raises (df : DataFrame) (e : exn) :
  count_other_languages df = Raise e → language_stats df = Raise e.
Proof.
  intros Hc. unfold language_stats. rewrite !guarded_caption_value, Hc. reflexivity.
Qed.

(** What the language block displays, in terms of the table. *)
Lemma language_stats_values (df : DataFrame) (st : LanguageStats) :
  language_stats df = Ok st →
  let n := length (rows df) in
  let a := total_with_other st in
  let b := total_languages st in
  let caption num :=
    if (0 <? n)%nat then Some (inject_Z num / inject_Z (Z.of_nat n) * 100)%Q else None in
  ∃ c, count_other_languages df = Ok (a, b, c)
    ∧ english_included st = boolean_sum "english_is_inclusion" english_is_inclusion df
    ∧ english_caption st = caption (english_included st)
    ∧ non_english_excluded st =
      boolean_sum "non_english_is_exclusion" non_english_is_exclusion df
    ∧ non_english_caption st = caption (non_english_excluded st)
    ∧ other_caption st = caption (Z.of_nat a)
    ∧ avg_metric st =
      (if (0 <? a)%nat then Some (inject_Z (Z.of_nat b) / inject_Z (Z.of_nat a))%Q else None)
    ∧ lang_df st = (if bool_decide (c = ∅) then None else Some (frame_of c a))
    ∧ (c ≠ ∅ → (0 < a)%nat).
Proof.
  intros Hst.
  destruct (count_other_languages df) as [[[a b] c]|e] eqn:Hc;
    [|by rewrite (language_stats_raises df e Hc) in Hst].
  rewrite (language_stats_unfold df a b c Hc) in Hst. injection Hst as <-.
  cbn [total_with_other total_languages english_included english_caption
       non_english_excluded non_english_caption other_caption avg_metric lang_df].
  exists c. repeat split; try done.
  - by destruct (0 <? a)%nat.
  - apply (count_other_languages_positive df a b c Hc).
Qed.

Lemma language_stats_ok (df : DataFrame) :
  criteria_dtype df = object ∨ has_column "other_language_criteria" df = false →
  ∃ st, language_stats df = Ok st.
Proof.
  intros [[[a b] c] Hc]%count_other_languages_returns.
  rewrite (language_stats_unfold df a b c Hc). by eexists.
Qed.


(** A state selection is drawn from the base table. *)
Lemma state_trials_original_empty (original_df : DataFrame) (geo_df : list GeoRow)
    (sel : string) :
  rows original_df = [] → rows (state_trials_original original_df geo_df sel) = [].
Proof.
  intros Hnil. unfold state_trials_original.
  destruct (String.eqb sel ALL_STATES); [done|]. unfold loc. cbn [rows].
  by rewrite Hnil.
Qed.

(** The statistics of a selection in terms of what the summary returned. *)
Lemma state_stats_unfold (original_df sel : DataFrame) a b (c : gmap string nat) :
  count_other_languages sel = Ok (a, b, c) →
  (0 < length (rows sel))%nat → (0 < length (rows original_df))%nat →
  let n := Z.of_nat (length (rows sel)) in
  let avg := if (0 <? a)%nat
             then (inject_Z (Z.of_nat b) / inject_Z (Z.of_nat a))%Q else 0%Q in
  state_stats original_df sel =
  Ok (Some
        {| total_trials := length (rows sel);
           percentage :=
             (inject_Z n / inject_Z (Z.of_nat (length (rows original_df))) * 100)%Q;
           state_english_caption :=
             (inject_Z (boolean_sum "english_is_inclusion" english_is_inclusion sel)
              / inject_Z n * 100)%Q;
           state_non_english_caption :=
             (inject_Z (boolean_sum "non_english_is_exclusion" non_english_is_exclusion sel)
              / inject_Z n * 100)%Q;
           state_other_caption := (inject_Z (Z.of_nat a) / inject_Z n * 100)%Q;
           state_avg_langs := avg;
           state_avg_metric := if (0 <? a)%nat then Some avg else None;
           state_lang_df := if bool_decide (c = ∅) then None else Some (frame_of c a) |}).
Proof.
  intros Hc Hsel Horig n avg. unfold state_stats.
  destruct (Nat.ltb_spec 0 (length (rows sel))); [|lia].
  rewrite !percent_value by lia. cbn [mbind result_bind].
  rewrite Hc. cbn [mbind result_bind].
  rewrite percent_value, avg_langs_value by lia. cbn [mbind result_bind].
  rewrite lang_df_value by apply (count_other_languages_positive sel a b c Hc).
  reflexivity.
Qed.

Lemma state_stats_raises (original_df sel : DataFrame) (e : exn) :
  count_other_languages sel = Raise e →
  (0 < length (rows sel))%nat → (0 < length (rows original_df))%nat →
  state_stats original_df sel = Raise e.
Proof.
  intros Hc Hsel Horig. unfold state_stats.
  destruct (Nat.ltb_spec 0 (length (rows sel))); [|lia].
  rewrite !percent_value by lia. cbn [mbind result_bind].
  by rewrite Hc.
Qed.

Lemma state_stats_empty (original_df sel : DataFrame) :
  rows sel = [] → state_stats original_df sel = Ok None.
Proof. intros Hnil. unfold state_stats. by rewrite Hnil. Qed.

Lemma state_stats_values (original_df sel : DataFrame) (o : StateStats) :
  (rows original_df = [] → rows sel = []) →
  state_stats original_df sel = Ok (Some o) →
  (0 < length (rows sel))%nat
  ∧ (0 < length (rows original_df))%nat
  ∧ total_trials o = length (rows sel)
  ∧ percentage o =
    (inject_Z (Z.of_nat (length (rows sel)))
     / inject_Z (Z.of_nat (length (rows original_df))) * 100)%Q.
Proof.
  intros Hsub Hst.
  destruct (Nat.ltb_spec 0 (length (rows sel))) as [Hpos|Hzero].
  - assert (0 < length (rows original_df))%nat as Horig.
    { destruct (rows original_df); [|simpl; lia].
      rewrite (Hsub eq_refl) in Hpos. simpl in Hpos. lia. }
    destruct (count_other_languages sel) as [[[a b] c]|e] eqn:Hc;
      [|by rewrite (state_stats_raises _ _ e Hc) in Hst].
    rewrite (state_stats_unfold original_df sel a b c Hc) in Hst by done.
    injection Hst as <-. cbn [total_trials percentage]. done.
  - rewrite state_stats_empty in Hst; [done|].
    destruct (rows sel); [done|simpl in Hzero; lia].
Qed.





(** ** Zip codes *)

Lemma take_digits_sound (n : nat) (s z : string) :
  take_digits n s = Some z →
  ∃ post, s = z +:+ post ∧ String.length z = n ∧ all_digits z = true.
Proof.
  revert s z. induction n as [|n IH]; intros s z; simpl.
  - intros [= <-]. by exists s.
  - destruct s as [|c s]; [done|]. destruct (Str.is_digit c) eqn:Hc; [|done].
    destruct (take_digits n s) as [z'|] eqn:Hz; [|done]. intros [= <-].
    destruct (IH s z' Hz) as (post & -> & <- & Hd).
    exists post. simpl. by rewrite Hc, Hd.
Qed.

Lemma take_digits_complete (z post : string) :
  all_digits z = true → take_digits (String.length z) (z +:+ post) = Some z.
Proof.
  induction z as [|c z IH]; simpl; [done|].
  intros [Hc Hz]%andb_prop. by rewrite Hc, (IH Hz).
Qed.

Lemma five_digits_take (z post : string) :
  five_digits z = true → take_digits 5 (z +:+ post) = Some z.
Proof.
  intros [Hlen%Nat.eqb_eq Hd]%andb_prop. rewrite <- Hlen.
  by apply take_digits_complete.
Qed.

Lemma extract_zip_unfold (s : string) :
  extract_zip s =
  match take_digits 5 s with
  | Some z => Some z
  | None => match s with
            | EmptyString => None
            | String _ s' => extract_zip s'
            end
  end.
Proof. by destruct s. Qed.

(** What [extract_zip] finds is the first run of five digits. *)
Lemma extract_zip_first (s z : string) : extract_zip s = Some z → first_five_digits s z.
Proof.
  revert z. induction s as [|c s IH]; intros z; rewrite extract_zip_unfold.
  - done.
  - destruct (take_digits 5 (String c s)) as [z'|] eqn:Hz.
    + intros [= <-].
      destruct (take_digits_sound _ _ _ Hz) as (post & Hs & Hlen & Hd).
      exists EmptyString, post. split; [done|]. split.
      * unfold five_digits. by rewrite Hlen, Hd.
      * intros; simpl; lia.
    + intros (pre & post & -> & Hfive & Hmin)%IH.
      exists (String c pre), post. split; [done|]. split; [done|].
      intros [|c' pre'] z' post' Hs' Hfive'.
      * change (String c (pre +:+ z +:+ post) = z' +:+ post') in Hs'.
        rewrite Hs', five_digits_take in Hz by done. done.
      * change (String c (pre +:+ z +:+ post) = String c' (pre' +:+ z' +:+ post')) in Hs'.
        injection Hs' as _ Hs'. simpl.
        specialize (Hmin pre' z' post' Hs' Hfive'). lia.
Qed.

(** Where [extract_zip] finds nothing there is no run of five digits. *)
Lemma extract_zip_none (s : string) : extract_zip s = None → no_five_digits s.
Proof.
  induction s as [|c s IH]; rewrite extract_zip_unfold.
  - intros _ [|? ?] z post Hs; [|done].
    change (EmptyString = z +:+ post) in Hs. destruct z; [done|discriminate].
  - destruct (take_digits 5 (String c s)) as [z'|] eqn:Hz; [done|].
    intros Hnone%IH [|c' pre] z post Hs.
    + change (String c s = z +:+ post) in Hs.
      destruct (five_digits z) eqn:Hfive; [|done].
      rewrite Hs, five_digits_take in Hz by done. done.
    + change (String c s = String c' (pre +:+ z +:+ post)) in Hs.
      injection Hs as _ Hs. by apply (Hnone pre z post).
Qed.

Lemma append_inv_length (p p' a b : string) :
  p +:+ a = p' +:+ b → String.length p = String.length p' → p = p' ∧ a = b.
Proof.
  revert p'. induction p as [|c p IH]; intros [|c' p'] Heq Hlen; try done.
  change (String c (p +:+ a) = String c' (p' +:+ b)) in Heq.
  injection Heq as -> Heq. simpl in Hlen.
  destruct (IH p' Heq) as [-> ->]; [lia|done].
Qed.

(** A string has at most one first run. *)
Lemma first_five_digits_unique (s z z' : string) : first_five_digits s z → first_five_digits s z' → z = z'.
Proof.
  intros (p & q & Hs & Hz & Hmin) (p' & q' & Hs' & Hz' & Hmin').
  assert (String.length p = String.length p') as Hlen.
  { apply Nat.le_antisymm; [by apply (Hmin p' z' q')|by apply (Hmin' p z q)]. }
  rewrite Hs in Hs'. destruct (append_inv_length _ _ _ _ Hs' Hlen) as [_ Htail].
  apply andb_prop in Hz as [Hz%Nat.eqb_eq _], Hz' as [Hz'%Nat.eqb_eq _].
  apply (append_inv_length z z' q q' Htail). congruence.
Qed.

Lemma first_five_digits_not_none (s z : string) : first_five_digits s z → ¬ no_five_digits s.
Proof.
  intros (p & q & Hs & Hz & _) Hnone. rewrite (Hnone p z q Hs) in Hz. done.
Qed.

(** ** The geo table *)

Lemma clean_zips_elem (df : DataFrame) (r : Row) (z : string) :
  (r, z) ∈ clean_zips df ↔
  r ∈ rows df ∧ extract_zip (astype_str (first_zipcode r)) = Some z.
Proof.
  unfold clean_zips. rewrite list_elem_of_omap. split.
  - intros (r' & Hr' & Hz).
    destruct (extract_zip (astype_str (first_zipcode r'))) eqn:He; [|done].
    simpl in Hz. by simplify_eq.
  - intros [Hr Hz]. exists r. by rewrite Hz.
Qed.

Lemma clean_zips_rows (df : DataFrame) :
  map fst (clean_zips df) =
  List.filter (fun r => bool_decide (is_Some (extract_zip (astype_str (first_zipcode r)))))
              (rows df).
Proof.
  unfold clean_zips. induction (rows df) as [|r l IH]; [done|].
  cbn [List.filter]. simpl.
  destruct (extract_zip (astype_str (first_zipcode r))); simpl; [f_equal|]; exact IH.
Qed.

Lemma foldl_insert_lookup (l : list (string * string)) (m : gmap string string) z st :
  foldl (fun m p => <[p.1 := p.2]> m) m l !! z = Some st →
  (z, st) ∈ l ∨ m !! z = Some st.
Proof.
  revert m. induction l as [|[k v] l IH]; intros m; simpl; [by right|].
  intros [Hin|Hm]%IH; [left; by right|].
  rewrite lookup_insert in Hm. case_decide; simplify_eq/=; [left; left|by right].
Qed.

Lemma dict_of_pairs_lookup (l : list (string * string)) z st :
  dict_of_pairs l !! z = Some st → (z, st) ∈ l.
Proof. by intros [?|?]%foldl_insert_lookup. Qed.

Lemma dropna_pairs_elem (l : list (option string * option string)) z st :
  (z, st) ∈ dropna_pairs l → (Some z, Some st) ∈ l.
Proof.
  unfold dropna_pairs. rewrite list_elem_of_omap.
  intros ([[z'|] [st'|]] & Hin & Heq); by simplify_eq.
Qed.

Section GeoFacts.

Variable query_postal_code : list string → list (option string * option string).
Variable csv : DataFrame.

Let geo_df := load_geographical_data query_postal_code csv.

Lemma geo_df_zips : map zip_clean geo_df = map snd (clean_zips csv).
Proof.
  unfold geo_df, load_geographical_data. rewrite map_map.
  apply map_ext. by intros [r z].
Qed.

Lemma geo_df_base : map base geo_df = map fst (clean_zips csv).
Proof.
  unfold geo_df, load_geographical_data. rewrite map_map.
  apply map_ext. by intros [r z].
Qed.

Lemma geo_df_elem (g : GeoRow) :
  g ∈ geo_df →
  (base g, zip_clean g) ∈ clean_zips csv
  ∧ state_code g = zip_to_state query_postal_code (clean_zips csv) !! zip_clean g.
Proof.
  unfold geo_df, load_geographical_data.
  rewrite list_elem_of_In, in_map_iff.
  intros ([r z] & <- & Hin%list_elem_of_In). done.
Qed.

(** A state code comes from an answer of the geocoder that names both the
    zip code and a state. *)
Lemma geo_df_state (g : GeoRow) (st : string) :
  g ∈ geo_df → state_code g = Some st →
  (Some (zip_clean g), Some st) ∈ query_postal_code (unique (map zip_clean geo_df)).
Proof.
  intros [_ Hst]%geo_df_elem Hsome. rewrite Hst in Hsome.
  rewrite geo_df_zips. unfold zip_to_state in Hsome.
  by apply dropna_pairs_elem, dict_of_pairs_lookup.
Qed.

End GeoFacts.

Lemma occurrences_state (st : string) (geo_df : list GeoRow) :
  occurrences st (dropna (map state_code geo_df)) =
  length (List.filter (fun g => bool_decide (state_code g = Some st)) geo_df).
Proof.
  unfold occurrences, dropna. induction geo_df as [|g l IH]; [done|].
  cbn [map List.filter]. simpl. destruct (state_code g) as [st'|]; simpl.
  - destruct (decide (st' = st)) as [->|Hne].
    + rewrite !bool_decide_eq_true_2 by done. simpl. f_equal. exact IH.
    + rewrite !bool_decide_eq_false_2 by congruence. exact IH.
  - exact IH.
Qed.

Lemma state_counts_lookup (geo_df : list GeoRow) (st : string) :
  default 0 (state_counts geo_df !! st) =
  length (List.filter (fun g => bool_decide (state_code g = Some st)) geo_df).
Proof.
  unfold state_counts. rewrite value_counts_lookup, <- occurrences_state.
  case_decide; [done|]. simpl. symmetry. by apply occurrences_not_in.
Qed.

(** C4, as stated, fails: [zip_clean] is not the first run of exactly five
    digits.  A phone number of seven digits before the zip code gives the
    first five digits of the phone number, and a run of nine digits, which
    holds no run of exactly five, gives its first five digits and keeps the
    record in the geo table. *)
Lemma zip_clean_not_exact_run :
  first_exact_run "(650) 7231234 / 94305" = Some "94305"
  ∧ extract_zip "(650) 7231234 / 94305" = Some "72312"
  ∧ first_exact_run "943051234" = None
  ∧ extract_zip "943051234" = Some "94305"
  ∧ map (fun g => (index (base g), zip_clean g))
        (load_geographical_data one_zip_geocoder long_run_table) =
    [(0%Z, "72312"); (1%Z, "94305")].
Proof. repeat split. Qed.

(** C4 (amended): the geo table takes as [zip_clean] the first five
    consecutive digits of [first_zipcode] read as text, also when they
    belong to a longer run of digits.  A record without five digits in a row
    is dropped from the geo table, and only there: the base table is the
    file as read.  A record with them stays in the geo table, in file order;
    when the geocoder's answer has no row naming both its zip code and a
    state, the record has no [state_code], and a record without [state_code]
    is counted under no state. *)
Theorem load_geographical_data_zip_state
    (query_postal_code : list string → list (option string * option string))
    (csv : DataFrame) :
  let geo_df := load_geographical_data query_postal_code csv in
  let answer := query_postal_code (unique (map zip_clean geo_df)) in
  (∀ g, g ∈ geo_df →
     base g ∈ rows csv
     ∧ first_five_digits (astype_str (first_zipcode (base g))) (zip_clean g))
  ∧ (∀ r, r ∈ rows csv → no_five_digits (astype_str (first_zipcode r)) →
          (r ∉ map base geo_df) ∧ r ∈ rows (load_original_data csv))
  ∧ (∀ r z, r ∈ rows csv → first_five_digits (astype_str (first_zipcode r)) z →
            ∃ g, g ∈ geo_df ∧ base g = r ∧ zip_clean g = z)
  ∧ map base geo_df =
    List.filter (fun r => bool_decide (is_Some (extract_zip (astype_str (first_zipcode r)))))
                (rows csv)
  ∧ load_original_data csv = csv
  ∧ (∀ g, g ∈ geo_df →
          (∀ st, (Some (zip_clean g), Some st) ∉ answer) → state_code g = None)
  ∧ (∀ st, default 0 (state_counts geo_df !! st) =
           length (List.filter (fun g => bool_decide (state_code g = Some st)) geo_df)).
Proof.
  intros geo_df answer. repeat apply conj.
  - intros g [[Hr Hz]%clean_zips_elem _]%geo_df_elem.
    split; [done|]. by apply extract_zip_first.
  - intros r Hr Hnone. split; [|done].
    unfold geo_df. rewrite geo_df_base.
    rewrite list_elem_of_In, in_map_iff. intros ([r' z] & Heq & Hin).
    simpl in Heq. subst r'.
    apply list_elem_of_In, clean_zips_elem in Hin as [_ Hz].
    apply extract_zip_first in Hz. by apply (first_five_digits_not_none _ _ Hz).
  - intros r z Hr Hrun.
    destruct (extract_zip (astype_str (first_zipcode r))) as [z'|] eqn:Hz.
    + assert (z' = z) as -> by (eapply first_five_digits_unique; [by apply extract_zip_first|done]).
      exists {| base := r; zip_clean := z;
                state_code := zip_to_state query_postal_code (clean_zips csv) !! z |}.
      split; [|done]. unfold geo_df, load_geographical_data.
      rewrite list_elem_of_In, in_map_iff. exists (r, z). split; [done|].
      by apply list_elem_of_In, clean_zips_elem.
    + by destruct (first_five_digits_not_none _ _ Hrun); apply extract_zip_none.
  - unfold geo_df. by rewrite geo_df_base, clean_zips_rows.
  - reflexivity.
  - intros g Hg Hnone. destruct (state_code g) as [st|] eqn:Hst; [|done].
    destruct (Hnone st). by apply geo_df_state.
  - apply state_counts_lookup.
Qed.

(** A digit run longer than five gives its first five digits, and digits
    that are not consecutive give nothing. *)
Example extract_zip_long_run :
  extract_zip "943051234" = Some "94305" ∧ extract_zip "9430-5123" = None.
Proof. split; reflexivity. Qed.

Lemma load_geographical_data_zip_state_witness :
  let geo_df := load_geographical_data one_zip_geocoder zip_table in
  map (fun g => (index (base g), zip_clean g, state_code g)) geo_df =
    [(0%Z, "94305", Some "CA"); (2%Z, "00000", None); (3%Z, "99999", None)]
  ∧ first_five_digits "94305-1234" "94305"
  ∧ state_code {| base := with_zip 2 (Str "00000"); zip_clean := "00000";
                  state_code := None |} = None.
Proof.
  destruct (load_geographical_data_zip_state one_zip_geocoder zip_table)
    as (Hrun & _ & _ & _ & _ & Hstate & _).
  split; [reflexivity|]. split.
  - apply (Hrun {| base := with_zip 0 (Str "94305-1234"); zip_clean := "94305";
                   state_code := Some "CA" |}).
    apply list_elem_of_In. left. reflexivity.
  - apply Hstate.
    + apply list_elem_of_In. right. left. reflexivity.
    + intros st Hin%list_elem_of_In. vm_compute in Hin.
      destruct Hin as [?|[?|[]]]; discriminate.
Defined.

(** * Further properties *)

(** ** More on stripping and splitting *)

Lemma contains_lstrip p c s :
  Str.contains c s = false → Str.contains c (Str.lstrip p s) = false.
Proof.
  induction s as [|d s IH]; [done|]. intros Hc. simpl.
  destruct (p d); [|done]. apply IH.
  simpl in Hc. by apply orb_false_elim in Hc as [_ ?].
Qed.

Lemma contains_rstrip p c s :
  Str.contains c s = false → Str.contains c (Str.rstrip p s) = false.
Proof.
  induction s as [|d s IH]; [done|]. intros Hc.
  simpl in Hc. apply orb_false_elim in Hc as [Hd Hs]. specialize (IH Hs).
  simpl. destruct (Str.rstrip p s) as [|e r].
  - destruct (p d); [done|]. simpl. by rewrite Hd.
  - change (Str.contains c (String d (String e r)) = false).
    cbn [Str.contains] in IH |- *. by rewrite Hd, IH.
Qed.

Lemma contains_strip_chars p c s :
  Str.contains c s = false → Str.contains c (Str.strip_chars p s) = false.
Proof. intros Hc. by apply contains_rstrip, contains_lstrip. Qed.

(** No piece of a split holds the separator. *)
Lemma contains_split sep s t : t ∈ Str.split sep s → Str.contains sep t = false.
Proof.
  revert t. induction s as [|c s IH]; simpl; intros t.
  - by intros ->%list_elem_of_singleton.
  - destruct (Ascii.eqb c sep) eqn:Hc.
    + intros [->|Ht]%elem_of_cons; [done|by apply IH].
    + destruct (Str.split sep s) as [|h tl]; simpl.
      * intros ->%list_elem_of_singleton. simpl. by rewrite Hc.
      * intros [->|Ht]%elem_of_cons.
        -- simpl. rewrite Hc. apply IH. left.
        -- apply IH. by right.
Qed.

Lemma contains_app c a b :
  Str.contains c (a +:+ b) = Str.contains c a || Str.contains c b.
Proof.
  induction a as [|d a IH]; [done|].
  change (Str.contains c (String d (a +:+ b)) =
          Str.contains c (String d a) || Str.contains c b).
  simpl. by rewrite IH, orb_assoc.
Qed.

Lemma split_no_sep sep s : Str.contains sep s = false → Str.split sep s = [s].
Proof.
  induction s as [|c s IH]; [done|]. simpl.
  intros [Hc Hs]%orb_false_elim. by rewrite Hc, (IH Hs).
Qed.

Lemma split_app sep a rest :
  Str.contains sep a = false →
  Str.split sep (a +:+ String sep rest) = a :: Str.split sep rest.
Proof.
  induction a as [|c a IH]; intros Ha.
  - change (Str.split sep (String sep rest) = EmptyString :: Str.split sep rest).
    simpl. by rewrite Ascii.eqb_refl.
  - simpl in Ha. apply orb_false_elim in Ha as [Hc Ha].
    change (Str.split sep (String c (a +:+ String sep rest)) =
            String c a :: Str.split sep rest).
    simpl. by rewrite Hc, (IH Ha).
Qed.

Lemma length_lstrip p s : (String.length (Str.lstrip p s) ≤ String.length s)%nat.
Proof.
  induction s as [|c s IH]; simpl; [done|]. destruct (p c); simpl; lia.
Qed.

Lemma length_rstrip p s : (String.length (Str.rstrip p s) ≤ String.length s)%nat.
Proof.
  induction s as [|c s IH]; simpl; [done|].
  destruct (Str.rstrip p s); [destruct (p c)|]; simpl in *; lia.
Qed.

(** A non-empty string that stripping leaves alone begins with a character
    that is kept, and is left alone by stripping on the right. *)
Lemma strip_chars_fixed p s :
  s ≠ EmptyString → Str.strip_chars p s = s →
  (∃ c s', s = String c s' ∧ p c = false) ∧ Str.rstrip p s = s.
Proof.
  destruct s as [|c s]; [done|]. intros _ Hfix.
  destruct (p c) eqn:Hc.
  - unfold Str.strip_chars in Hfix. simpl in Hfix. rewrite Hc in Hfix.
    pose proof (length_rstrip p (Str.lstrip p s)) as H1.
    pose proof (length_lstrip p s) as H2.
    rewrite Hfix in H1. simpl in H1. lia.
  - split; [eauto|].
    rewrite StrFacts.strip_chars_keep in Hfix by done.
    by rewrite StrFacts.rstrip_keep.
Qed.

Lemma rstrip_app p a b :
  Str.rstrip p b ≠ EmptyString → Str.rstrip p (a +:+ b) = a +:+ Str.rstrip p b.
Proof.
  intros Hb. induction a as [|c a IH]; [done|].
  change (Str.rstrip p (String c (a +:+ b)) = String c (a +:+ Str.rstrip p b)).
  simpl. rewrite IH.
  destruct (a +:+ Str.rstrip p b) eqn:Happ; [|done].
  destruct a; [|done]. by destruct Hb.
Qed.

(** ** More on the parser *)

(** No token holds a comma: on every input that is not a list, the tokens
    the parser returns are free of the separator. *)
Theorem parse_sub_category_tokens_no_comma (c : cell) (t : string) :
  t ∈ cell_tokens c →
  parse_sub_category (Scalar c) = Ok (cell_tokens c) ∧ Str.contains "," t = false.
Proof.
  intros Ht. split; [apply parse_sub_category_scalar|].
  destruct c as [| z | s]; try (by apply elem_of_nil in Ht).
  revert Ht. cbn [cell_tokens]. unfold parse_str.
  destruct (Str.truthy (Str.strip s)); simpl; [|by intros ?%elem_of_nil].
  destruct (Str.startswith "[" (Str.strip s) && Str.endswith "]" (Str.strip s)).
  - destruct (Str.truthy (Str.strip (Str.slice_1_m1 (Str.strip s)))); simpl;
      [|by intros ?%elem_of_nil].
    rewrite list_elem_of_In, filter_In, in_map_iff.
    intros [(item & <- & Hitem%list_elem_of_In) _].
    by apply contains_strip_chars, contains_strip_chars, (contains_split _ _ _ Hitem).
  - destruct (Str.contains "," (Str.strip s)) eqn:Hcomma.
    + rewrite list_elem_of_In, filter_In, in_map_iff.
      intros [(item & <- & Hitem%list_elem_of_In) _].
      by apply contains_strip_chars, (contains_split _ _ _ Hitem).
    + intros ->%list_elem_of_singleton. by rewrite StrFacts.strip_idemp.
Qed.

Lemma parse_sub_category_tokens_no_comma_witness :
  parse_sub_category (Scalar (Str "[a , 'b,c']")) = Ok ["a"; "b"; "c"]
  ∧ Str.contains "," "b" = false.
Proof.
  apply (parse_sub_category_tokens_no_comma (Str "[a , 'b,c']") "b").
  apply list_elem_of_In. right. left. reflexivity.
Defined.

(** The tokens of a string that is not enclosed in brackets carry no white
    space at either end; the tokens of a bracketed string carry no quote
    character at either end. *)
Theorem parse_str_tokens_stripped (s t : string) :
  t ∈ parse_str s →
  if Str.startswith "[" (Str.strip s) && Str.endswith "]" (Str.strip s)
  then Str.strip_chars Str.is_quote t = t
  else Str.strip t = t.
Proof.
  unfold parse_str.
  destruct (Str.truthy (Str.strip s)); simpl;
    [|intros ?%elem_of_nil; done].
  destruct (Str.startswith "[" (Str.strip s) && Str.endswith "]" (Str.strip s)).
  - destruct (Str.truthy (Str.strip (Str.slice_1_m1 (Str.strip s)))); simpl;
      [|by intros ?%elem_of_nil].
    rewrite list_elem_of_In, filter_In, in_map_iff.
    intros [(item & <- & _) _]. apply StrFacts.strip_chars_idemp.
  - destruct (Str.contains "," (Str.strip s)).
    + rewrite list_elem_of_In, filter_In, in_map_iff.
      intros [(item & <- & _) _]. apply StrFacts.strip_idemp.
    + intros ->%list_elem_of_singleton. by rewrite !StrFacts.strip_idemp.
Qed.

Lemma parse_str_tokens_stripped_witness :
  Str.strip "Heart Failure" = "Heart Failure".
Proof.
  apply (parse_str_tokens_stripped " Stroke ,  Heart Failure " "Heart Failure").
  apply list_elem_of_In. right. left. reflexivity.
Defined.

(** *** Joining and parsing *)

Lemma clean_token_head t :
  clean_token t → ∃ c t', t = String c t' ∧ Str.is_space c = false.
Proof. intros (Hne & _ & Hfix). by apply (strip_chars_fixed Str.is_space t). Qed.

Lemma clean_token_rstrip t : clean_token t → Str.rstrip Str.is_space t = t.
Proof. intros (Hne & _ & Hfix). by apply (strip_chars_fixed Str.is_space t). Qed.

Lemma join_comma_cons t t2 rest :
  join_comma (t :: t2 :: rest) = t +:+ String "," (String " " (join_comma (t2 :: rest))).
Proof. reflexivity. Qed.

Lemma join_comma_head t rest c t' :
  t = String c t' → ∃ j, join_comma (t :: rest) = String c j.
Proof.
  intros ->. destruct rest as [|t2 rest]; [by eexists|].
  rewrite join_comma_cons. by eexists.
Qed.

Lemma rstrip_join t rest :
  Forall clean_token (t :: rest) →
  Str.rstrip Str.is_space (join_comma (t :: rest)) = join_comma (t :: rest).
Proof.
  revert t. induction rest as [|t2 rest IH]; intros t [Ht Hrest]%Forall_cons.
  - by apply clean_token_rstrip.
  - rewrite join_comma_cons. specialize (IH t2 Hrest).
    apply Forall_cons in Hrest as [Ht2 _].
    destruct (clean_token_head t2 Ht2) as (c & t2' & Heq & _).
    destruct (join_comma_head t2 rest c t2' Heq) as [j Hj].
    assert (Str.rstrip Str.is_space (String "," (String " " (join_comma (t2 :: rest)))) =
            String "," (String " " (join_comma (t2 :: rest)))) as Htail.
    { change (String "," (String " " (join_comma (t2 :: rest))))
        with (", " +:+ join_comma (t2 :: rest)).
      rewrite rstrip_app; rewrite IH; [done|]. by rewrite Hj. }
    rewrite rstrip_app; rewrite Htail; done.
Qed.

Lemma strip_join t rest :
  Forall clean_token (t :: rest) →
  Str.strip (join_comma (t :: rest)) = join_comma (t :: rest).
Proof.
  intros Hall. pose proof (rstrip_join t rest Hall) as Hr.
  apply Forall_cons in Hall as [Ht _].
  destruct (clean_token_head t Ht) as (c & t' & Heq & Hc).
  destruct (join_comma_head t rest c t' Heq) as [j Hj].
  rewrite Hj in Hr |- *. unfold Str.strip.
  rewrite StrFacts.strip_chars_keep by done.
  by rewrite StrFacts.rstrip_keep in Hr.
Qed.

Lemma split_join t rest :
  Forall clean_token (t :: rest) →
  Str.split "," (join_comma (t :: rest)) = t :: map (String " ") rest.
Proof.
  revert t. induction rest as [|t2 rest IH]; intros t [Ht Hrest]%Forall_cons.
  - apply split_no_sep, Ht.
  - rewrite join_comma_cons, split_app by apply Ht.
    f_equal. cbn [Str.split]. change (Ascii.eqb " " ",") with false. cbv iota.
    by rewrite (IH t2 Hrest).
Qed.

Lemma strip_pieces rest :
  Forall clean_token rest → map Str.strip (map (String " ") rest) = rest.
Proof.
  induction 1 as [|t rest Ht _ IH]; [done|]. cbn [map]. rewrite IH. f_equal.
  apply Ht.
Qed.

Lemma filter_truthy_clean l :
  Forall clean_token l → List.filter Str.truthy l = l.
Proof.
  induction 1 as [|t rest Ht _ IH]; [done|]. cbn [List.filter]. rewrite IH.
  destruct t; [by destruct Ht|done].
Qed.

(** Round trip: clean tokens joined with a comma and a space, the first of
    which does not open a bracket, are parsed back to the same tokens. *)
Theorem parse_join_round_trip (t : string) (rest : list string) :
  Forall clean_token (t :: rest) →
  Str.startswith "[" t = false →
  parse_sub_category (Scalar (Str (join_comma (t :: rest)))) = Ok (t :: rest).
Proof.
  intros Hall Hopen. rewrite parse_sub_category_scalar. cbn [cell_tokens]. f_equal.
  pose proof Hall as [Ht Hrest]%Forall_cons.
  destruct (clean_token_head t Ht) as (c & t' & Heq & Hc).
  destruct (join_comma_head t rest c t' Heq) as [j Hj].
  unfold parse_str. rewrite !strip_join by done.
  assert (Str.startswith "[" (join_comma (t :: rest)) = false) as ->
    by (rewrite Hj; by rewrite Heq in Hopen).
  rewrite Hj at 1. cbn [Str.truthy Str.is_empty negb andb].
  destruct rest as [|t2 rest].
  - cbn [join_comma]. destruct Ht as (_ & -> & _). done.
  - assert (Str.contains "," (join_comma (t :: t2 :: rest)) = true) as ->.
    { rewrite join_comma_cons, contains_app. simpl. apply orb_true_r. }
    rewrite split_join by done.
    change (map Str.strip (t :: map (String " ") (t2 :: rest)))
      with (Str.strip t :: map Str.strip (map (String " ") (t2 :: rest))).
    rewrite (strip_pieces (t2 :: rest)) by done.
    destruct Ht as (_ & _ & ->). by apply filter_truthy_clean.
Qed.

Lemma parse_join_round_trip_witness :
  parse_sub_category (Scalar (Str (join_comma ["Heart Failure"; "Stroke"; "[x"]))) =
  Ok ["Heart Failure"; "Stroke"; "[x"].
Proof.
  apply (parse_join_round_trip "Heart Failure" ["Stroke"; "[x"]); [|reflexivity].
  repeat (apply Forall_cons; split;
            [split; [discriminate|split; reflexivity]|]).
  constructor.
Defined.

(** The parser applied to its own output: when the first call yields
    exactly one token the second call returns the same list, and when it
    yields two or more tokens the second call raises [ValueError]. *)
Theorem parse_twice_idempotent (c : cell) :
  ((length (cell_tokens c) = 1)%nat →
   parse_twice (Scalar c) = parse_sub_category (Scalar c))
  ∧ ((2 ≤ length (cell_tokens c))%nat → parse_twice (Scalar c) = Raise ValueError).
Proof.
  rewrite parse_twice_spec, parse_sub_category_scalar.
  destruct (Nat.eqb_spec (length (cell_tokens c)) 1); split; intros; done || lia.
Qed.

Lemma parse_twice_idempotent_witness :
  parse_twice (Scalar (Str " Single ")) = parse_sub_category (Scalar (Str " Single "))
  ∧ parse_twice (Scalar (Str "a,b,c")) = Raise ValueError.
Proof.
  split.
  - apply (parse_twice_idempotent (Str " Single ")). reflexivity.
  - apply (parse_twice_idempotent (Str "a,b,c")). simpl. lia.
Defined.

(** ** More on counting *)

Lemma counts_total_insert (m : gmap string nat) (x : string) (n : nat) :
  m !! x = None → counts_total (<[x := n]> m) = n + counts_total m.
Proof.
  intros Hx. unfold counts_total.
  rewrite map_fold_insert_L; [done| |done]. intros; lia.
Qed.

Lemma counts_total_delete (m : gmap string nat) (x : string) (n : nat) :
  m !! x = Some n → counts_total m = n + counts_total (delete x m).
Proof.
  intros Hx. unfold counts_total.
  rewrite (map_fold_delete_L _ _ x n m); [done| |done]. intros; lia.
Qed.

(** The counts of [value_counts] add up to the number of values counted. *)
Lemma counts_total_value_counts (l : list string) :
  counts_total (value_counts l) = length l.
Proof.
  induction l as [|x l IH]; [apply map_fold_empty|].
  cbn [value_counts foldr length]. fold (value_counts l).
  destruct (value_counts l !! x) as [n|] eqn:Hx; simpl.
  - rewrite <- insert_delete_eq, counts_total_insert by apply lookup_delete_eq.
    rewrite (counts_total_delete _ x n Hx) in IH. lia.
  - rewrite counts_total_insert by done. lia.
Qed.

Lemma value_counts_nil_iff (l : list string) : value_counts l = ∅ ↔ l = [].
Proof. split; [apply value_counts_empty|by intros ->]. Qed.

Lemma split_length sep s : (1 ≤ length (Str.split sep s))%nat.
Proof. destruct (StrFacts.split_cons sep s) as (h & t & ->). simpl. lia. Qed.

Lemma split_concat_length (l : list string) :
  (length l ≤ length (concat (map (Str.split ",") l)))%nat.
Proof.
  induction l as [|s l IH]; [done|]. cbn [map concat]. rewrite length_app.
  pose proof (split_length "," s). simpl. lia.
Qed.

(** The pieces [count_other_languages] counts: the comma-separated parts of
    the values that are present, each trimmed. *)
Lemma count_other_languages_pieces (df : DataFrame) a b (c : gmap string nat) :
  count_other_languages df = Ok (a, b, c) →
  has_column "other_language_criteria" df = true →
  let pieces := map Str.strip
                    (concat (map (Str.split ",")
                                 (dropna (map other_language_criteria (rows df))))) in
  a = length (dropna (map other_language_criteria (rows df)))
  ∧ b = length pieces ∧ c = value_counts pieces.
Proof.
  intros Hc Hcol pieces. unfold count_other_languages in Hc. rewrite Hcol in Hc.
  destruct (criteria_dtype df); cbn [str_accessor mbind result_bind] in Hc; [|done].
  injection Hc as <- <- <-. by rewrite notna_sum_dropna.
Qed.

Lemma trials_le_mentions (df : DataFrame) a b (c : gmap string nat) :
  count_other_languages df = Ok (a, b, c) → (a ≤ b)%nat.
Proof.
  intros Hc. destruct (has_column "other_language_criteria" df) eqn:Hcol.
  - destruct (count_other_languages_pieces df a b c Hc Hcol) as (-> & -> & _).
    rewrite length_map. apply split_concat_length.
  - rewrite count_other_languages_absent in Hc by done. by injection Hc as <- <- _.
Qed.

(** Every trial with another language is mentioned at least once: whenever
    the summary returns, the number of mentions is not below the number of
    such trials, and both are 0 for a table without the column. *)
Theorem count_other_languages_mentions (df : DataFrame) :
  (∀ a b c, count_other_languages df = Ok (a, b, c) → (a ≤ b)%nat)
  ∧ (has_column "other_language_criteria" df = false →
     count_other_languages df = Ok (0, 0, ∅)).
Proof.
  split; [apply trials_le_mentions|apply count_other_languages_absent].
Qed.

Lemma count_other_languages_mentions_witness :
  (2 ≤ 3)%nat
  ∧ count_other_languages (read_csv ["category"] [record_1]) = Ok (0, 0, ∅).
Proof.
  split.
  - apply (count_other_languages_mentions (e2e_table (Some "French, German")))
      with (c := {[ "Spanish" := 1; "French" := 1; "German" := 1 ]}).
    by vm_compute.
  - apply (count_other_languages_mentions (read_csv ["category"] [record_1])).
    reflexivity.
Defined.

(** Whenever the summary returns, the language counts are empty exactly
    when no trial has another language, and exactly when no language is
    mentioned - also for a table without the column. *)
Theorem count_other_languages_empty (df : DataFrame) a b (c : gmap string nat) :
  count_other_languages df = Ok (a, b, c) →
  (c = ∅ ↔ a = 0) ∧ (c = ∅ ↔ b = 0).
Proof.
  intros Hc. destruct (has_column "other_language_criteria" df) eqn:Hcol.
  - destruct (count_other_languages_pieces df a b c Hc Hcol) as (-> & -> & ->).
    rewrite value_counts_nil_iff, length_map.
    pose proof (split_concat_length (dropna (map other_language_criteria (rows df)))) as Hle.
    destruct (dropna (map other_language_criteria (rows df))) as [|x l] eqn:Hd.
    + done.
    + split; split; intros H; try (simpl in *; lia).
      * apply (f_equal length) in H. rewrite length_map in H. simpl in *. lia.
      * apply (f_equal length) in H. rewrite length_map in H. simpl in *. lia.
  - rewrite count_other_languages_absent in Hc by done. by injection Hc as <- <- <-.
Qed.

Lemma count_other_languages_empty_witness :
  ((∅ : gmap string nat) = ∅ ↔ 0 = 0) ∧ ((∅ : gmap string nat) = ∅ ↔ 0 = 0).
Proof.
  apply (count_other_languages_empty
           (select (fun r => bool_decide (index r = 2%Z)) (e2e_table None))).
  by vm_compute.
Defined.

(** Whenever the summary returns, the language counts add up to the number
    of mentions. *)
Theorem count_other_languages_total (df : DataFrame) a b (c : gmap string nat) :
  count_other_languages df = Ok (a, b, c) → counts_total c = b.
Proof.
  intros Hc. destruct (has_column "other_language_criteria" df) eqn:Hcol.
  - destruct (count_other_languages_pieces df a b c Hc Hcol) as (_ & -> & ->).
    apply counts_total_value_counts.
  - rewrite count_other_languages_absent in Hc by done. injection Hc as _ <- <-.
    apply map_fold_empty.
Qed.

Lemma count_other_languages_total_witness :
  counts_total ({[ "Spanish" := 2; "French" := 1 ]} : gmap string nat) = 3.
Proof.
  apply (count_other_languages_total (e2e_table (Some "French, Spanish")) 2).
  by vm_compute.
Defined.

(** Each language is counted once per mention, not once per trial: whenever
    the summary returns for a table with the column, the count of a language
    is the number of trimmed pieces equal to it, over all values present in
    the column, and a language never mentioned has no entry. *)
Theorem count_other_languages_lookup (df : DataFrame) (language : string)
    a b (c : gmap string nat) :
  count_other_languages df = Ok (a, b, c) →
  has_column "other_language_criteria" df = true →
  let pieces := map Str.strip
                    (concat (map (Str.split ",")
                                 (dropna (map other_language_criteria (rows df))))) in
  default 0 (c !! language) = occurrences language pieces
  ∧ (c !! language = None ↔ language ∉ pieces).
Proof.
  intros Hc Hcol pieces.
  destruct (count_other_languages_pieces df a b c Hc Hcol) as (_ & _ & ->).
  fold pieces. rewrite value_counts_lookup.
  destruct (decide (language ∈ pieces)) as [Hin|Hout]; simpl.
  - split; [done|]. split; [done|]. by intros [].
  - split; [by rewrite occurrences_not_in|done].
Qed.

Lemma count_other_languages_lookup_witness :
  default 0
    (({[ "Spanish" := 3; "French" := 1 ]} : gmap string nat) !! "Spanish") = 3.
Proof.
  destruct (count_other_languages_lookup
              (e2e_table (Some "Spanish, French ,Spanish")) "Spanish" 2 4
              {[ "Spanish" := 3; "French" := 1 ]})
    as [H _]; [by vm_compute|reflexivity|].
  rewrite H. reflexivity.
Defined.

Lemma occurrences_dropna {A : Type} (f : A → option string) (x : string) (l : list A) :
  occurrences x (dropna (map f l)) =
  length (List.filter (fun a => bool_decide (f a = Some x)) l).
Proof.
  unfold occurrences, dropna. induction l as [|a l IH]; [done|].
  cbn [map List.filter]. simpl. destruct (f a) as [y|]; simpl.
  - destruct (decide (y = x)) as [->|Hne].
    + rewrite !bool_decide_eq_true_2 by done. simpl. f_equal. exact IH.
    + rewrite !bool_decide_eq_false_2 by congruence. exact IH.
  - exact IH.
Qed.

Lemma occurrences_app {A : Type} `{EqDecision A} (x : A) (l1 l2 : list A) :
  occurrences x (l1 ++ l2) = occurrences x l1 + occurrences x l2.
Proof. unfold occurrences. by rewrite List.filter_app, length_app. Qed.

Lemma occurrences_elem {A : Type} `{EqDecision A} (x : A) (l : list A) :
  x ∈ l → (1 ≤ occurrences x l)%nat.
Proof.
  induction l as [|y l IH]; [by intros ?%elem_of_nil|].
  rewrite occurrences_cons. intros [->|Hin]%elem_of_cons.
  - rewrite decide_True by done. lia.
  - specialize (IH Hin). lia.
Qed.

Lemma dropna_length {A : Type} (f : A → option string) (l : list A) :
  length (dropna (map f l)) =
  length (List.filter (fun a => bool_decide (is_Some (f a))) l).
Proof.
  unfold dropna. induction l as [|a l IH]; [done|].
  cbn [map List.filter]. simpl. destruct (f a); simpl; [f_equal|]; exact IH.
Qed.

Lemma filter_filter_and {A : Type} (p q : A → bool) (l : list A) :
  List.filter q (List.filter p l) = List.filter (fun x => p x && q x) l.
Proof.
  induction l as [|x l IH]; [done|]. cbn [List.filter].
  destruct (p x); cbn [List.filter andb]; [destruct (q x)|]; by rewrite IH.
Qed.

Lemma filter_nil_iff {A : Type} (p : A → bool) (l : list A) :
  List.filter p l = [] ↔ ∀ x, x ∈ l → p x = false.
Proof.
  induction l as [|x l IH]; [split; [by intros _ ? ?%elem_of_nil|done]|].
  cbn [List.filter]. destruct (p x) eqn:Hx.
  - split; [done|]. intros H. specialize (H x). rewrite Hx in H.
    by discriminate H; left.
  - rewrite IH. split.
    + intros H y [->|Hy]%elem_of_cons; auto.
    + intros H y Hy. apply H. by right.
Qed.

(** ** More on the selectors *)

(** A specific category selects exactly the records of that category, in
    table order, and as many of them as the category counts of the pie
    chart say. *)
Theorem filtered_df_category (original_df : DataFrame) (selected : string) :
  String.eqb selected ALL_CATEGORIES = false →
  rows (filtered_df original_df selected) =
    List.filter (fun r => bool_decide (category r = Some selected)) (rows original_df)
  ∧ (∀ r, r ∈ rows (filtered_df original_df selected) → category r = Some selected)
  ∧ length (rows (filtered_df original_df selected)) =
    default 0 (category_counts original_df !! selected).
Proof.
  intros Hsel. unfold filtered_df. rewrite Hsel. cbn [select rows].
  split; [done|]. split.
  - intros r. rewrite list_elem_of_In, filter_In.
    intros [_ Hc]. by apply bool_decide_eq_true in Hc.
  - unfold category_counts. rewrite value_counts_lookup, <- occurrences_dropna.
    case_decide; [done|]. simpl. by apply occurrences_not_in.
Qed.

Lemma filtered_df_category_witness :
  String.eqb "CVD" ALL_CATEGORIES = false
  ∧ length (rows (filtered_df (e2e_table None) "CVD")) =
    default 0 (category_counts (e2e_table None) !! "CVD").
Proof.
  split; [reflexivity|].
  apply (filtered_df_category (e2e_table None) "CVD"). reflexivity.
Defined.

(** The category counts add up to the number of records that have a
    category: a record is counted once, a record without category not at
    all. *)
Theorem category_counts_total (original_df : DataFrame) :
  counts_total (category_counts original_df) =
  length (List.filter (fun r => bool_decide (is_Some (category r))) (rows original_df)).
Proof.
  unfold category_counts. by rewrite counts_total_value_counts, dropna_length.
Qed.

(** The sub-category counts add up to the number of tokens over all
    records of the selection, not to the number of records. *)
Theorem sub_cat_counts_total (df : DataFrame) :
  ∃ exploded, sub_cat_df df = Ok exploded
    ∧ counts_total (sub_cat_counts exploded) = sum_list (map token_count (rows df)).
Proof.
  rewrite sub_cat_df_ok. eexists; split; [reflexivity|].
  unfold sub_cat_counts. cbn [rows].
  by rewrite exploded_tokens, counts_total_value_counts, tokens_length.
Qed.

Lemma tokens_elem (token : string) (l : list Row) :
  token ∈ concat (map (fun r => cell_tokens (sub_category r)) l) ↔
  ∃ r, r ∈ l ∧ has_token token r = true.
Proof.
  rewrite list_elem_of_In, in_concat. split.
  - intros (tokens & (r & <- & Hr)%in_map_iff & Hin).
    exists r. rewrite has_token_tokens, bool_decide_eq_true.
    by rewrite !list_elem_of_In.
  - intros (r & Hr & Htok). exists (cell_tokens (sub_category r)). split.
    + apply in_map_iff. exists r. by rewrite <- list_elem_of_In.
    + rewrite has_token_tokens, bool_decide_eq_true in Htok.
      by apply list_elem_of_In.
Qed.

Lemma selected_le_occurrences (token : string) (l : list Row) :
  (length (List.filter (has_token token) l) ≤
   occurrences token (concat (map (fun r => cell_tokens (sub_category r)) l)))%nat.
Proof.
  induction l as [|r l IH]; [done|]. cbn [List.filter map concat].
  rewrite occurrences_app. destruct (has_token token r) eqn:Hr; [|lia].
  rewrite has_token_tokens, bool_decide_eq_true in Hr.
  pose proof (occurrences_elem _ _ Hr). simpl. lia.
Qed.

(** A sub-category is counted in the pie chart exactly when selecting it
    returns some record, and it never selects more records than it is
    counted: a record that names it twice is counted twice and selected
    once. *)
Theorem sub_cat_option_selects (df : DataFrame) (selected : string) :
  String.eqb selected ALL_SUB_CATEGORIES = false →
  ∃ exploded out,
    sub_cat_df df = Ok exploded
    ∧ sub_cat_filtered_df df selected = Ok out
    ∧ (sub_cat_counts exploded !! selected = None ↔ rows out = [])
    ∧ (length (rows out) ≤ default 0 (sub_cat_counts exploded !! selected))%nat.
Proof.
  intros Hsel. rewrite sub_cat_df_ok, sub_cat_filtered_df_ok by done.
  eexists _, _. split; [reflexivity|]. split; [reflexivity|].
  unfold sub_cat_counts. cbn [rows select]. rewrite exploded_tokens.
  rewrite value_counts_lookup. pose proof (tokens_elem selected (rows df)) as Helem.
  pose proof (selected_le_occurrences selected (rows df)) as Hle.
  rewrite filter_nil_iff. case_decide as Hin; simpl.
  - split; [|done]. split; [done|]. intros Hnone.
    apply Helem in Hin as (r & Hr & Htok). by rewrite (Hnone r Hr) in Htok.
  - split; [|by rewrite occurrences_not_in in Hle].
    split; [|done]. intros _ r Hr.
    destruct (has_token selected r) eqn:Htok; [|done].
    destruct Hin. apply Helem. eauto.
Qed.

Lemma sub_cat_option_selects_witness :
  ∃ exploded out,
    sub_cat_df stroke_table = Ok exploded
    ∧ sub_cat_filtered_df stroke_table "Stroke" = Ok out
    ∧ (sub_cat_counts exploded !! "Stroke" = None ↔ rows out = [])
    ∧ (length (rows out) ≤ default 0 (sub_cat_counts exploded !! "Stroke"))%nat.
Proof. apply (sub_cat_option_selects stroke_table "Stroke"). reflexivity. Defined.

(** The two selectors in a chain: a specific category followed by a
    specific sub-category returns the records of the table that have the
    category and carry the token, in table order. *)
Theorem chained_selection (original_df : DataFrame) (selected_category selected_sub : string) :
  String.eqb selected_category ALL_CATEGORIES = false →
  String.eqb selected_sub ALL_SUB_CATEGORIES = false →
  sub_cat_filtered_df (filtered_df original_df selected_category) selected_sub =
  Ok (select (fun r => bool_decide (category r = Some selected_category)
                       && has_token selected_sub r) original_df).
Proof.
  intros Hcat Hsub. rewrite sub_cat_filtered_df_ok by done.
  unfold filtered_df. rewrite Hcat. unfold select. cbn [rows columns].
  by rewrite filter_filter_and.
Qed.

Lemma chained_selection_witness :
  sub_cat_filtered_df (filtered_df (e2e_table None) "CVD") "Stroke" =
  Ok (select (fun r => bool_decide (category r = Some "CVD") && has_token "Stroke" r)
             (e2e_table None)).
Proof. apply chained_selection; reflexivity. Defined.

(** ** More on the geo table *)

Lemma elem_of_unique_from (seen l : list string) (x : string) :
  x ∈ unique_from seen l ↔ x ∈ l ∧ x ∉ seen.
Proof.
  revert seen. induction l as [|y l IH]; intros seen; cbn [unique_from].
  - split; [by intros ?%elem_of_nil|by intros [?%elem_of_nil _]].
  - case_bool_decide as Hy.
    + rewrite IH. split.
      * intros [Hx Hs]. split; [by right|done].
      * intros [[->|Hx]%elem_of_cons Hs]; [done|by split].
    + rewrite elem_of_cons, IH, !elem_of_cons. split.
      * intros [->|[Hx Hs]]; [split; [by left|done]|].
        split; [by right|]. intros ?; apply Hs; by right.
      * intros [[->|Hx] Hs]; [by left|].
        destruct (decide (x = y)) as [->|Hne]; [by left|].
        right. split; [done|]. by intros [?|?].
Qed.

Lemma NoDup_unique_from (seen l : list string) : NoDup (unique_from seen l).
Proof.
  revert seen. induction l as [|y l IH]; intros seen; cbn [unique_from].
  - constructor.
  - case_bool_decide; [apply IH|]. constructor; [|apply IH].
    rewrite elem_of_unique_from. intros [_ Hy]. apply Hy. left.
Qed.

(** The geocoder is asked once about each cleaned zip code: the codes it is
    given are those of the records that have one, without repetition. *)
Theorem geocoder_query_codes
    (query_postal_code : list string → list (option string * option string))
    (csv : DataFrame) :
  let codes := unique (map snd (clean_zips csv)) in
  zip_to_state query_postal_code (clean_zips csv) =
    dict_of_pairs (dropna_pairs (query_postal_code codes))
  ∧ NoDup codes
  ∧ ∀ z, z ∈ codes ↔
         ∃ r, r ∈ rows csv ∧ extract_zip (astype_str (first_zipcode r)) = Some z.
Proof.
  intros codes. split; [reflexivity|]. split; [apply NoDup_unique_from|].
  intros z. unfold codes, unique. rewrite elem_of_unique_from.
  rewrite list_elem_of_In, in_map_iff. split.
  - intros [([r z'] & Heq & Hin) _]. simpl in Heq. subst z'.
    exists r. by apply clean_zips_elem, list_elem_of_In.
  - intros (r & Hr & Hz). split; [|by intros ?%elem_of_nil].
    exists (r, z). split; [done|]. by apply list_elem_of_In, clean_zips_elem.
Qed.

Lemma foldl_insert_some (l : list (string * string)) (m : gmap string string) k :
  is_Some (m !! k) → is_Some (foldl (fun m p => <[p.1 := p.2]> m) m l !! k).
Proof.
  revert m. induction l as [|[k' v'] l IH]; intros m Hm; [done|].
  cbn [foldl]. apply IH. rewrite lookup_insert. by case_decide.
Qed.

Lemma foldl_insert_elem (l : list (string * string)) (m : gmap string string) k v :
  (k, v) ∈ l → is_Some (foldl (fun m p => <[p.1 := p.2]> m) m l !! k).
Proof.
  revert m. induction l as [|[k' v'] l IH]; intros m; [by intros ?%elem_of_nil|].
  intros [Heq|Hin]%elem_of_cons; cbn [foldl]; [|by apply IH].
  simplify_eq. apply foldl_insert_some. simpl. by rewrite lookup_insert_eq.
Qed.

(** A dictionary built from pairs that agree with a function agrees with
    that function on every key that occurs. *)
Lemma dict_of_pairs_functional (f : string → option string) (l : list (string * string)) k :
  (∀ k' v', (k', v') ∈ l → f k' = Some v') →
  dict_of_pairs l !! k = if decide (k ∈ map fst l) then f k else None.
Proof.
  intros Hf. case_decide as Hk.
  - apply list_elem_of_In, in_map_iff in Hk as ([k' v] & Heq & Hin).
    simpl in Heq. subst k'. apply list_elem_of_In in Hin.
    destruct (foldl_insert_elem l ∅ k v Hin) as [v' Hv'].
    unfold dict_of_pairs. rewrite Hv'. symmetry.
    by apply Hf, dict_of_pairs_lookup.
  - destruct (dict_of_pairs l !! k) as [v|] eqn:Hv; [|done].
    destruct Hk. apply dict_of_pairs_lookup in Hv.
    apply list_elem_of_In, in_map_iff. exists (k, v). by rewrite <- list_elem_of_In.
Qed.

Lemma table_geocoder_pairs (table : string → option string) (codes : list string) k v :
  (k, v) ∈ dropna_pairs (table_geocoder table codes) ↔ k ∈ codes ∧ table k = Some v.
Proof.
  unfold dropna_pairs, table_geocoder. rewrite list_elem_of_omap. split.
  - intros ([[z|] [st|]] & Hin & Heq); simplify_eq.
    apply list_elem_of_In, in_map_iff in Hin as (z' & Heq & Hin).
    simplify_eq. by rewrite list_elem_of_In.
  - intros [Hk Hv]. exists (Some k, Some v). split; [|done].
    apply list_elem_of_In, in_map_iff. exists k. rewrite Hv.
    by rewrite <- list_elem_of_In.
Qed.

(** With a geocoder that answers every code with the state a table holds for
    it, each record of the geo table carries the state of its own zip code,
    and none when the table has no state for it. *)
Theorem load_geographical_data_table (table : string → option string) (csv : DataFrame)
    (g : GeoRow) :
  g ∈ load_geographical_data (table_geocoder table) csv →
  state_code g = table (zip_clean g).
Proof.
  intros [Hclean Hstate]%geo_df_elem. rewrite Hstate. unfold zip_to_state.
  rewrite (dict_of_pairs_functional table)
    by (intros k v Hkv; by apply table_geocoder_pairs in Hkv as [_ ?]).
  case_decide as Hk; [done|].
  destruct (table (zip_clean g)) as [st|] eqn:Hst; [|done].
  destruct Hk. apply list_elem_of_In, in_map_iff. exists (zip_clean g, st).
  split; [done|]. apply list_elem_of_In, table_geocoder_pairs. split; [|done].
  unfold unique. rewrite elem_of_unique_from. split; [|by intros ?%elem_of_nil].
  apply list_elem_of_In, in_map_iff. exists (base g, zip_clean g).
  by rewrite <- list_elem_of_In.
Qed.

Lemma load_geographical_data_table_witness :
  state_code {| base := with_zip 0 (Str "94305-1234"); zip_clean := "94305";
                state_code := Some "CA" |}
  = (fun z => if String.eqb z "94305" then Some "CA" else None) "94305".
Proof.
  apply (load_geographical_data_table
           (fun z => if String.eqb z "94305" then Some "CA" else None) zip_table).
  apply list_elem_of_In. left. reflexivity.
Defined.

(** The state counts add up to the number of geo records that have a
    state. *)
Theorem state_counts_total (geo_df : list GeoRow) :
  counts_total (state_counts geo_df) =
  length (List.filter (fun g => bool_decide (is_Some (state_code g))) geo_df).
Proof.
  unfold state_counts. by rewrite counts_total_value_counts, dropna_length.
Qed.

(** ** The map and the state selector agree *)

(** Whether a record of the file ends up in the geo table under state [st],
    for the zip-to-state mapping [m]. *)
Lemma geo_rows_of_state (m : gmap string string) (st : string) (l : list Row) :
  let in_state r :=
    match extract_zip (astype_str (first_zipcode r)) with
    | Some z => bool_decide (m !! z = Some st)
    | None => false
    end in
  let geo :=
    map (fun '(r, z) => {| base := r; zip_clean := z; state_code := m !! z |})
        (omap (fun r => (fun z => (r, z)) <$> extract_zip (astype_str (first_zipcode r))) l) in
  map (fun g => index (base g))
      (List.filter (fun g => bool_decide (state_code g = Some st)) geo)
  = map index (List.filter in_state l)
  ∧ length (List.filter (fun g => bool_decide (state_code g = Some st)) geo)
    = length (List.filter in_state l).
Proof.
  intros in_state geo. subst in_state geo.
  induction l as [|r l [IH1 IH2]]; [done|].
  cbn [List.filter]. simpl omap.
  destruct (extract_zip (astype_str (first_zipcode r))) as [z|]; simpl;
    [|split; [exact IH1|exact IH2]].
  destruct (bool_decide (m !! z = Some st)); simpl;
    split; try f_equal; (exact IH1 || exact IH2).
Qed.

Lemma index_injective (l : list Row) (x y : Row) :
  NoDup (map index l) → x ∈ l → y ∈ l → index x = index y → x = y.
Proof.
  induction l as [|a l IH]; [by intros _ ?%elem_of_nil|].
  cbn [map]. intros [Ha Hl]%NoDup_cons [->|Hx]%elem_of_cons [->|Hy]%elem_of_cons Heq.
  - done.
  - destruct Ha. rewrite Heq. by apply list_elem_of_fmap_2.
  - destruct Ha. rewrite <- Heq. by apply list_elem_of_fmap_2.
  - by apply IH.
Qed.

Lemma filter_by_selected_index (p : Row → bool) (l : list Row) :
  NoDup (map index l) →
  List.filter (fun r => bool_decide (index r ∈ map index (List.filter p l))) l =
  List.filter p l.
Proof.
  intros Hnd. apply filter_ext_in. intros r Hr%list_elem_of_In.
  destruct (p r) eqn:Hp.
  - apply bool_decide_eq_true. apply list_elem_of_fmap_2.
    apply list_elem_of_In, filter_In. by rewrite <- list_elem_of_In.
  - apply bool_decide_eq_false.
    intros (r' & Heq & [Hr' Hp']%list_elem_of_In%filter_In)%list_elem_of_fmap.
    apply list_elem_of_In in Hr'.
    rewrite (index_injective l r r' Hnd Hr Hr' Heq) in Hp. congruence.
Qed.

(** For the geo table loaded from the same file, selecting a state returns
    as many trials as the map shows for that state: the count of the
    choropleth and the total of the selection agree. *)
Theorem state_selection_matches_map
    (query_postal_code : list string → list (option string * option string))
    (csv : DataFrame) (selected_state : string) :
  String.eqb selected_state ALL_STATES = false →
  NoDup (map index (rows csv)) →
  let geo_df := load_geographical_data query_postal_code csv in
  length (rows (state_trials_original (load_original_data csv) geo_df selected_state)) =
  default 0 (state_counts geo_df !! selected_state).
Proof.
  intros Hsel Hnd geo_df. unfold load_original_data.
  rewrite state_trials_original_rows, state_counts_lookup by done.
  unfold state_trial_ids, geo_df, load_geographical_data. cbv zeta.
  set (m := zip_to_state query_postal_code (clean_zips csv)).
  destruct (geo_rows_of_state m selected_state (rows csv)) as [Hids Hlen].
  unfold clean_zips. rewrite Hids, Hlen. by rewrite filter_by_selected_index.
Qed.

Lemma state_selection_matches_map_witness :
  String.eqb "CA" ALL_STATES = false
  ∧ NoDup (map index (rows zip_table))
  ∧ length (rows (state_trials_original (load_original_data zip_table)
                    (load_geographical_data one_zip_geocoder zip_table) "CA")) =
    default 0 (state_counts (load_geographical_data one_zip_geocoder zip_table) !! "CA").
Proof.
  assert (NoDup (map index (rows zip_table))) as Hnd
    by (apply (bool_decide_unpack _); reflexivity).
  split; [reflexivity|]. split; [exact Hnd|].
  apply (state_selection_matches_map one_zip_geocoder zip_table "CA");
    [reflexivity|exact Hnd].
Defined.

(** ** The values of the ratios *)

Lemma Qratio_pos (a b : Z) : (0 < a)%Z → (0 < b)%Z → (0 < inject_Z a / inject_Z b)%Q.
Proof.
  intros Ha Hb. apply Qlt_shift_div_l.
  - change 0%Q with (inject_Z 0). by rewrite <- Zlt_Qlt.
  - rewrite Qmult_0_l. change 0%Q with (inject_Z 0). by rewrite <- Zlt_Qlt.
Qed.

Lemma Qratio_nonneg (a b : Z) : (0 ≤ a)%Z → (0 < b)%Z → (0 <= inject_Z a / inject_Z b)%Q.
Proof.
  intros Ha Hb. apply Qle_shift_div_l.
  - change 0%Q with (inject_Z 0). by rewrite <- Zlt_Qlt.
  - rewrite Qmult_0_l. change 0%Q with (inject_Z 0). by rewrite <- Zle_Qle.
Qed.

Lemma Qratio_le_1 (a b : Z) : (a ≤ b)%Z → (0 < b)%Z → (inject_Z a / inject_Z b <= 1)%Q.
Proof.
  intros Ha Hb. apply Qle_shift_div_r.
  - change 0%Q with (inject_Z 0). by rewrite <- Zlt_Qlt.
  - rewrite Qmult_1_l. by rewrite <- Zle_Qle.
Qed.

Lemma Qratio_ge_1 (a b : Z) : (b ≤ a)%Z → (0 < b)%Z → (1 <= inject_Z a / inject_Z b)%Q.
Proof.
  intros Ha Hb. apply Qle_shift_div_l.
  - change 0%Q with (inject_Z 0). by rewrite <- Zlt_Qlt.
  - rewrite Qmult_1_l. by rewrite <- Zle_Qle.
Qed.

Lemma Qpercent_bounds (a b : Z) :
  (0 ≤ a ≤ b)%Z → (0 < b)%Z →
  (0 <= inject_Z a / inject_Z b * 100)%Q ∧ (inject_Z a / inject_Z b * 100 <= 100)%Q.
Proof.
  intros [Ha Hab] Hb. split.
  - apply Qmult_le_0_compat; [by apply Qratio_nonneg|discriminate].
  - apply Qle_trans with (1 * 100)%Q; [|apply Qle_refl].
    apply Qmult_le_compat_r; [by apply Qratio_le_1|discriminate].
Qed.

Lemma count_other_languages_le_rows (df : DataFrame) a b (c : gmap string nat) :
  count_other_languages df = Ok (a, b, c) → (a ≤ length (rows df))%nat.
Proof.
  intros Hc. rewrite (count_other_languages_present df a b c Hc).
  destruct (has_column "other_language_criteria" df); [|lia].
  apply filter_length_le.
Qed.

(** Whenever the average number of additional languages is shown (and not
    the not-applicable marker), it is at least one. *)
Theorem avg_langs_at_least_one (df : DataFrame) (st : LanguageStats) (q : Q) :
  language_stats df = Ok st → avg_metric st = Some q → (1 <= q)%Q.
Proof.
  intros Hst Hq.
  destruct (language_stats_values df st Hst) as (c & Hc & _ & _ & _ & _ & _ & Havg & _).
  rewrite Havg in Hq.
  destruct (Nat.ltb_spec 0 (total_with_other st)) as [Hpos|]; [|done].
  injection Hq as <-. pose proof (trials_le_mentions df _ _ _ Hc).
  apply Qratio_ge_1; lia.
Qed.

Lemma avg_langs_at_least_one_witness :
  ∃ st q, language_stats (e2e_table (Some "Spanish, French")) = Ok st
          ∧ avg_metric st = Some q ∧ (1 <= q)%Q.
Proof.
  destruct (language_stats_ok (e2e_table (Some "Spanish, French")))
    as [st Hst]; [left; reflexivity|].
  destruct (avg_metric st) as [q|] eqn:Hq.
  - exists st, q. split; [exact Hst|]. split; [exact Hq|].
    exact (avg_langs_at_least_one _ st q Hst Hq).
  - exfalso. vm_compute in Hst. injection Hst as <-. discriminate Hq.
Defined.

(** The share of the selected trials that have additional languages, when
    it is shown, lies between 0 and 100 percent. *)
Theorem other_caption_bounds (df : DataFrame) (st : LanguageStats) (q : Q) :
  language_stats df = Ok st → other_caption st = Some q →
  (0 <= q)%Q ∧ (q <= 100)%Q.
Proof.
  intros Hst Hq.
  destruct (language_stats_values df st Hst) as (c & Hc & _ & _ & _ & _ & Hother & _).
  rewrite Hother in Hq.
  destruct (Nat.ltb_spec 0 (length (rows df))) as [Hpos|]; [|done].
  injection Hq as <-. pose proof (count_other_languages_le_rows df _ _ _ Hc).
  apply Qpercent_bounds; lia.
Qed.

Lemma other_caption_bounds_witness :
  ∃ st q, language_stats (e2e_table None) = Ok st
          ∧ other_caption st = Some q ∧ (0 <= q)%Q ∧ (q <= 100)%Q.
Proof.
  destruct (language_stats_ok (e2e_table None)) as [st Hst]; [left; reflexivity|].
  destruct (other_caption st) as [q|] eqn:Hq.
  - exists st, q. split; [exact Hst|]. split; [exact Hq|].
    exact (other_caption_bounds _ st q Hst Hq).
  - exfalso. vm_compute in Hst. injection Hst as <-. discriminate Hq.
Defined.

Lemma series_sum_flags (field : Row → option Z) (l : list Row) :
  (∀ r, r ∈ l → field r = None ∨ field r = Some 0%Z ∨ field r = Some 1%Z) →
  series_sum (map field l) =
  Z.of_nat (length (List.filter (fun r => bool_decide (field r = Some 1%Z)) l)).
Proof.
  unfold series_sum, dropna. induction l as [|r l IH]; intros Hflag; [done|].
  cbn [map List.filter].
  assert (foldr Z.add 0%Z (omap id (map field l)) =
          Z.of_nat (length (List.filter (fun r => bool_decide (field r = Some 1%Z)) l)))
    as IH' by (apply IH; intros x Hx; apply Hflag; by right).
  destruct (Hflag r) as [Hr|[Hr|Hr]]; [left|..]; rewrite Hr; simpl.
  - exact IH'.
  - exact IH'.
  - transitivity (1 + foldr Z.add 0%Z (omap id (map field l)))%Z; [reflexivity|].
    rewrite IH'. lia.
Qed.

Lemma boolean_sum_count (name : string) (field : Row → option Z) (df : DataFrame) :
  flag_column field df →
  boolean_sum name field df =
  if has_column name df
  then Z.of_nat (length (List.filter (fun r => bool_decide (field r = Some 1%Z)) (rows df)))
  else 0%Z.
Proof.
  intros Hflag. unfold boolean_sum. destruct (has_column name df); [|done].
  by apply series_sum_flags.
Qed.

(** On a column of flags (0, 1 or missing) the sum is the number of records
    flagged 1, and 0 when the table has no such column. *)
Theorem boolean_sum_flags (name : string) (field : Row → option Z) (df : DataFrame) :
  flag_column field df →
  boolean_sum name field df =
  if has_column name df
  then Z.of_nat (length (List.filter (fun r => bool_decide (field r = Some 1%Z)) (rows df)))
  else 0%Z.
Proof. apply boolean_sum_count. Qed.

Lemma boolean_sum_flags_witness :
  boolean_sum "english_is_inclusion" english_is_inclusion (e2e_table None) = 1%Z.
Proof.
  rewrite (boolean_sum_flags "english_is_inclusion" english_is_inclusion (e2e_table None)).
  - reflexivity.
  - intros r Hr%list_elem_of_In. simpl in Hr.
    destruct Hr as [<-|[<-|[]]]; simpl; auto.
Defined.

(** With a flag column the share of trials with English as an inclusion
    criterion, when it is shown, lies between 0 and 100 percent. *)
Theorem english_caption_bounds (df : DataFrame) (st : LanguageStats) (q : Q) :
  flag_column english_is_inclusion df →
  language_stats df = Ok st → english_caption st = Some q →
  (0 <= q)%Q ∧ (q <= 100)%Q.
Proof.
  intros Hflag Hst Hq.
  destruct (language_stats_values df st Hst) as (c & _ & Hinc & Hcap & _).
  rewrite Hcap, Hinc in Hq.
  destruct (Nat.ltb_spec 0 (length (rows df))) as [Hpos|]; [|done].
  injection Hq as <-.
  rewrite (boolean_sum_count _ _ _ Hflag).
  pose proof (filter_length_le
                (fun r => bool_decide (english_is_inclusion r = Some 1%Z)) (rows df)).
  destruct (has_column "english_is_inclusion" df); apply Qpercent_bounds; lia.
Qed.

Lemma english_caption_bounds_witness :
  ∃ st q, language_stats (e2e_table None) = Ok st
          ∧ english_caption st = Some q ∧ (0 <= q)%Q ∧ (q <= 100)%Q.
Proof.
  destruct (language_stats_ok (e2e_table None)) as [st Hst]; [left; reflexivity|].
  destruct (english_caption st) as [q|] eqn:Hq.
  - exists st, q. split; [exact Hst|]. split; [exact Hq|].
    apply (english_caption_bounds (e2e_table None) st q); [|exact Hst|exact Hq].
    intros r Hr%list_elem_of_In. simpl in Hr.
    destruct Hr as [<-|[<-|[]]]; simpl; auto.
  - exfalso. vm_compute in Hst. injection Hst as <-. discriminate Hq.
Defined.

Lemma state_trials_original_length (original_df : DataFrame) (geo_df : list GeoRow)
    (sel : string) :
  NoDup (map index (rows original_df)) →
  (length (rows (state_trials_original original_df geo_df sel)) ≤
   length (rows original_df))%nat.
Proof.
  intros Hnd. destruct (String.eqb sel ALL_STATES) eqn:Hsel.
  - unfold state_trials_original. by rewrite Hsel.
  - rewrite state_trials_original_rows by done. apply filter_length_le.
Qed.

(** The share of all trials shown for a selection on the geographic tab is
    above 0 and at most 100 percent, and the selection never holds more
    trials than the base table. *)
Theorem state_percentage_bounds (original_df : DataFrame) (geo_df : list GeoRow)
    (selected_state : string) (o : StateStats) :
  NoDup (map index (rows original_df)) →
  state_tab original_df geo_df selected_state = Ok (Some o) →
  (0 < percentage o)%Q ∧ (percentage o <= 100)%Q
  ∧ (0 < total_trials o ≤ length (rows original_df))%nat.
Proof.
  intros Hnd Htab. unfold state_tab in Htab.
  destruct geo_df as [|g geo_df]; [done|].
  apply state_stats_values in Htab as (Hsel & Horig & -> & ->);
    [|apply state_trials_original_empty].
  pose proof (state_trials_original_length original_df (g :: geo_df) selected_state Hnd).
  split; [|split; [|lia]].
  - apply Qmult_lt_0_compat; [apply Qratio_pos; lia|reflexivity].
  - apply Qpercent_bounds; lia.
Qed.

Lemma state_percentage_bounds_witness :
  ∃ o, state_tab base_123 geo_13 "CA" = Ok (Some o)
       ∧ (0 < percentage o)%Q ∧ (percentage o <= 100)%Q
       ∧ (0 < total_trials o ≤ length (rows base_123))%nat.
Proof.
  assert (NoDup (map index (rows base_123))) as Hnd
    by (apply (bool_decide_unpack _); reflexivity).
  destruct (state_tab base_123 geo_13 "CA") as [[o|]|e] eqn:Htab.
  - exists o. split; [reflexivity|].
    exact (state_percentage_bounds base_123 geo_13 "CA" o Hnd Htab).
  - exfalso. vm_compute in Htab. discriminate Htab.
  - exfalso. vm_compute in Htab. discriminate Htab.
Defined.
